(** * iconlib: a shallow embedding of [iconlib.py] and its specification

    The module resolves icon files from a static registry of libraries
    ([LIBRARIES]), and turns them into Qt pixmaps.  The embedding follows
    the Python source function by function:

    - Python [str], [dict] and [pathlib.PurePosixPath] become [string],
      [gmap string string] and the record [Path];
    - the two mutable kinds of object the code touches (dictionaries and
      [QColor] objects) live in an explicit [Store], and the functions that
      read or change objects, or raise, are computations in a small
      state-and-exception monad;
    - what only the host can decide (the file system, the image decoder,
      the SVG rasteriser, the smooth resampler, and how the toolkit rounds
      the channels of a pixel that it keeps premultiplied by its alpha) is
      a variable of the section [Iconlib];
    - paths are POSIX paths, and the primitives of the toolkit ([QPainter],
      [QPixmap.scaled]) follow what Qt does. *)

From Stdlib Require Import ZArith String Ascii List Lia.
From stdpp Require Import base tactics option list gmap strings sorting
  pretty.

Local Open Scope Z_scope.

(** ** Python strings *)

Module Str.

(** [s.endswith(e)] *)
Fixpoint endswith (s e : string) : bool :=
  if String.eqb s e then true
  else match s with
       | EmptyString => false
       | String _ r => endswith r e
       end.

(** [s.startswith(p)] *)
Definition startswith (s p : string) : bool := String.prefix p s.

(** [c in s] for a single character [c] *)
Fixpoint contains (c : ascii) (s : string) : bool :=
  match s with
  | EmptyString => false
  | String a r => Ascii.eqb a c || contains c r
  end.

(** [s.split(c)]: never the empty list. *)
Fixpoint split (c : ascii) (s : string) : list string :=
  match s with
  | EmptyString => [EmptyString]
  | String a r =>
      if Ascii.eqb a c then EmptyString :: split c r
      else match split c r with
           | [] => [String a EmptyString]
           | w :: ws => String a w :: ws
           end
  end.

(** [sep.join(l)] *)
Fixpoint join (sep : string) (l : list string) : string :=
  match l with
  | [] => ""
  | [x] => x
  | x :: r => x +:+ sep +:+ join sep r
  end.

(** [repr(s)] for a string without quotes, backslashes or control
    characters (which is what library names are). *)
Definition repr (s : string) : string := "'" +:+ s +:+ "'".

(** [repr(l)] for a list of strings. *)
Definition repr_list (l : list string) : string :=
  "[" +:+ join ", " (repr <$> l) +:+ "]".

(** [sub in s] *)
Definition substring_of (sub s : string) : Prop :=
  ∃ pre post, s = pre +:+ sub +:+ post.

(** [s[s.rfind('.'):]] when [s] has a dot. *)
Fixpoint from_last_dot (s : string) : option string :=
  match s with
  | EmptyString => None
  | String a r =>
      match from_last_dot r with
      | Some t => Some t
      | None => if Ascii.eqb a "." then Some s else None
      end
  end.

(** [sorted(l)] on strings: Python compares strings by code point, that
    is, bytewise in this encoding. *)
Definition sorted (l : list string) : list string := merge_sort String.le l.

End Str.

(** ** [pathlib.PurePosixPath] *)

(** A path is its anchor (["" ], ["/"] or ["//"]) and the list of its
    components; pathlib drops empty and ["."] components when it parses. *)
Record Path := mkPath { anchor : string; parts : list string }.

Module Pathlib.

Definition is_absolute (s : string) : bool := Str.startswith s "/".

(** [posixpath.splitroot]: exactly two leading slashes are kept. *)
Definition anchor_of (s : string) : string :=
  if Str.startswith s "///" then "/"
  else if Str.startswith s "//" then "//"
  else if Str.startswith s "/" then "/"
  else "".

Definition keep_part (p : string) : bool :=
  negb (String.eqb p "") && negb (String.eqb p ".").

Definition parts_of (s : string) : list string :=
  List.filter keep_part (Str.split "/" s).

(** [Path(s)] *)
Definition parse (s : string) : Path := mkPath (anchor_of s) (parts_of s).

(** [str(p)] *)
Definition str (p : Path) : string :=
  match anchor p, parts p with
  | EmptyString, [] => "."
  | a, ps => a +:+ Str.join "/" ps
  end.

(** [p / s]: an absolute right operand replaces the left one. *)
Definition joinpath (p : Path) (s : string) : Path :=
  if is_absolute s then parse s
  else mkPath (anchor p) (parts p ++ parts_of s).

(** [p.parent] *)
Definition parent (p : Path) : Path :=
  mkPath (anchor p) (removelast (parts p)).

(** [p.name] *)
Definition name (p : Path) : string := List.last (parts p) "".

(** [p.suffix]: [name[i:]] when [0 < i < len(name) - 1] for
    [i = name.rfind('.')]. *)
Definition suffix (p : Path) : string :=
  match Str.from_last_dot (name p) with
  | Some t =>
      if (String.length t <? String.length (name p))%nat
         && (1 <? String.length t)%nat
      then t else ""
  | None => ""
  end.

End Pathlib.

Notation "p // s" := (Pathlib.joinpath p s) (at level 40, left associativity).


(** ** Exceptions and results *)

Inductive exception : Type :=
  | ValueError (msg : string)
  | FileNotFoundError (msg : string)
  | KeyError (key : string)
  | IndexError (msg : string)
  | TypeError (msg : string)
  | OSError (errno : Z)
  (** outside the fragment of Python this development covers: a
      replacement field with a conversion, a format specification, an
      attribute or index lookup or a name that is not ASCII, or a
      reference to no object *)
  | NotModelled (what : string).

Inductive result (A : Type) : Type :=
  | Ok (a : A)
  | Raise (e : exception).
Arguments Ok {A} a.
Arguments Raise {A} e.

(** ** [os.stat] and its errors *)

Module Os.

(** The error numbers, as Linux has them. *)
Definition ENOENT : Z := 2.
Definition EBADF : Z := 9.
Definition ENOTDIR : Z := 20.
Definition ENAMETOOLONG : Z := 36.
Definition ELOOP : Z := 40.

(** What [os.stat(name)] does: it returns, it raises [OSError] with an
    error number, or it raises [ValueError] (a name that the system call
    cannot take, such as one with a null character). *)
Inductive stat_result : Type :=
  | StatOk
  | StatOSError (errno : Z)
  | StatValueError.

(** [pathlib._ignore_error]: the errors that say that there is no such
    file. *)
Definition ignore_error (errno : Z) : bool :=
  (errno =? ENOENT) || (errno =? ENOTDIR) || (errno =? EBADF)
  || (errno =? ELOOP).

End Os.

(** ** [str.format] with keyword arguments *)

Module Format.

(** What a template is made of: literal characters and replacement
    fields. *)
Inductive segment : Type :=
  | Lit (c : ascii)
  | Field (name : string).

Definition special (c : ascii) : bool :=
  Ascii.eqb c "!" || Ascii.eqb c ":" || Ascii.eqb c "." || Ascii.eqb c "[".

(** Python takes a field name for a number by the decimal digits of
    Unicode; a field name is taken to be ASCII here. *)
Definition is_ascii (c : ascii) : bool := (N_of_ascii c <? 128)%N.

(** The scanner of the format string.  [field] is [None] in literal text
    and [Some name] inside a replacement field, [name] being what has been
    read of the field so far.  [str.format] fills a field in as soon as it
    has read it: the scan gives the segments it has read, and the error
    at which it stopped, when it did not reach the end. *)
Fixpoint scan (t : string) (field : option string)
  : list segment * option exception :=
  match field, t with
  | None, EmptyString => ([], None)
  | None, String "{" (String "{" r) =>
      let (segs, e) := scan r None in (Lit "{" :: segs, e)
  | None, String "{" EmptyString =>
      ([], Some (ValueError "Single '{' encountered in format string"))
  | None, String "{" r => scan r (Some "")
  | None, String "}" (String "}" r) =>
      let (segs, e) := scan r None in (Lit "}" :: segs, e)
  | None, String "}" _ =>
      ([], Some (ValueError "Single '}' encountered in format string"))
  | None, String c r =>
      let (segs, e) := scan r None in (Lit c :: segs, e)
  | Some _, EmptyString =>
      ([], Some (ValueError "expected '}' before end of string"))
  | Some name, String "}" r =>
      let (segs, e) := scan r None in (Field name :: segs, e)
  | Some _, String "{" _ =>
      ([], Some (ValueError "unexpected '{' in field name"))
  | Some name, String c r =>
      if special c || negb (is_ascii c)
      then ([], Some (NotModelled "replacement field"))
      else scan r (Some (name +:+ String c ""))
  end.

(** The segments of a template that the scan reads to its end. *)
Definition parse (t : string) (field : option string)
  : result (list segment) :=
  match scan t field with
  | (segs, None) => Ok segs
  | (_, Some e) => Raise e
  end.

Definition is_digit (c : ascii) : bool :=
  (48 <=? N_of_ascii c)%N && (N_of_ascii c <=? 57)%N.

Fixpoint all_digits (s : string) : bool :=
  match s with
  | EmptyString => true
  | String c r => is_digit c && all_digits r
  end.

(** [get_integer]: the number that a field name of digits stands for, and
    [None] when it is more than a [Py_ssize_t] of 64 bits holds. *)
Definition PY_SSIZE_T_MAX : N := 2 ^ 63 - 1.

Fixpoint get_integer (s : string) (accumulator : N) : option N :=
  match s with
  | EmptyString => Some accumulator
  | String c r =>
      let digitval := (N_of_ascii c - 48)%N in
      if ((PY_SSIZE_T_MAX - digitval) / 10 <? accumulator)%N then None
      else get_integer r (accumulator * 10 + digitval)%N
  end.

(** The value of one field.  The call passes keyword arguments only, so
    that a field name that is empty (the first of the automatic numbering,
    index 0) or a number finds no positional argument. *)
Definition get_value (name : string) (kw : gmap string string)
  : result string :=
  if all_digits name then
    match get_integer name 0 with
    | Some index =>
        Raise (IndexError
                 ("Replacement index " +:+ pretty index
                    +:+ " out of range for positional args tuple"))
    | None => Raise (ValueError "Too many decimal digits in format string")
    end
  else match kw !! name with
       | Some v => Ok v
       | None => Raise (KeyError name)
       end.

Fixpoint render (segs : list segment) (kw : gmap string string)
  : result string :=
  match segs with
  | [] => Ok ""
  | Lit c :: r =>
      match render r kw with
      | Ok s => Ok (String c s)
      | Raise e => Raise e
      end
  | Field name :: r =>
      match get_value name kw with
      | Ok v =>
          match render r kw with
          | Ok s => Ok (v +:+ s)
          | Raise e => Raise e
          end
      | Raise e => Raise e
      end
  end.

(** [t.format] called with the keyword arguments [kw]: the fields that
    were read are filled in, in their order, and the error of the scan, if
    there is one, comes after them. *)
Definition format (t : string) (kw : gmap string string) : result string :=
  let (segs, e) := scan t None in
  match render segs kw with
  | Ok s =>
      match e with
      | None => Ok s
      | Some e => Raise e
      end
  | Raise e' => Raise e'
  end.

(** A field name that is a plain identifier: letters of ASCII, digits and
    ['_'], the first no digit. *)
Definition is_letter (c : ascii) : bool :=
  ((65 <=? N_of_ascii c)%N && (N_of_ascii c <=? 90)%N)
  || ((97 <=? N_of_ascii c)%N && (N_of_ascii c <=? 122)%N)
  || (N_of_ascii c =? 95)%N.

Fixpoint word (s : string) : bool :=
  match s with
  | EmptyString => true
  | String c r => (is_letter c || is_digit c) && word r
  end.

Definition identifier (s : string) : bool :=
  match s with
  | EmptyString => false
  | String c r => is_letter c && word r
  end.

(** The names of the placeholders a template refers to. *)
Fixpoint field_names (segs : list segment) : list string :=
  match segs with
  | [] => []
  | Lit _ :: r => field_names r
  | Field name :: r => name :: field_names r
  end.

Definition placeholders (t : string) : list string :=
  field_names (scan t None).1.

End Format.

(** ** Objects and the store *)

(** Objects are referred to by their address. *)
Definition loc : Type := nat.

(** [QColor]: four 8-bit channels. *)
Record QColor : Type :=
  mkColor { red : Z; green : Z; blue : Z; alpha : Z }.

(** One entry of [LIBRARIES]: a dictionary with the keys ["path"] and
    ["defaults"], the latter referring to a dictionary object. *)
Record library_config : Type :=
  mkConfig { cfg_path : option string; cfg_defaults : option loc }.

(** The state a call can see: the module global [LIBRARIES], the
    dictionary objects and the [QColor] objects. *)
Record Store : Type :=
  mkStore {
    LIBRARIES : gmap string library_config;
    dicts : gmap loc (gmap string string);
    colours : gmap loc QColor
  }.

(** The store after the module has been imported (source lines 27-42). *)
Definition initial_store : Store :=
  {| LIBRARIES :=
       {[ "material" :=
            {| cfg_path := Some "{icon}/{style}.{ext}";
               cfg_defaults := Some 0%nat |};
          "internal" :=
            {| cfg_path := Some "{icon}/{style}.{ext}";
               cfg_defaults := Some 1%nat |} ]};
     dicts :=
       {[ 0%nat := {[ "style" := "regular"; "ext" := "svg" ]};
          1%nat := {[ "style" := "regular"; "ext" := "png" ]} ]};
     colours := ∅ |}.

(** ** The monad of the module's functions: state and exceptions *)

Definition M (A : Type) : Type := Store → result A * Store.

Definition ret {A} (a : A) : M A := λ σ, (Ok a, σ).

Definition raise {A} (e : exception) : M A := λ σ, (Raise e, σ).

Definition bind {A B} (m : M A) (k : A → M B) : M B :=
  λ σ, match m σ with
       | (Ok a, σ') => k a σ'
       | (Raise e, σ') => (Raise e, σ')
       end.

Definition lift {A} (r : result A) : M A := λ σ, (r, σ).

Notation "'let!' x ':=' m 'in' k" := (bind m (λ x, k))
  (at level 10, x name, m at level 100, k at level 200,
   format "'[v' 'let!'  x  ':='  m  'in' '/' k ']'").
Notation "m ';;' k" := (bind m (λ _, k))
  (at level 100, k at level 200, right associativity).

Module Dict.

(** A new dictionary object holding [d]; its address is returned. *)
Definition new (d : gmap string string) : M loc :=
  λ σ, let l := fresh (dom (dicts σ)) in
       (Ok l, {| LIBRARIES := LIBRARIES σ;
                 dicts := <[l := d]> (dicts σ);
                 colours := colours σ |}).

(** The contents of the dictionary at [l]. *)
Definition read (l : loc) : M (gmap string string) :=
  λ σ, match dicts σ !! l with
       | Some d => (Ok d, σ)
       | None => (Raise (NotModelled "no such dictionary"), σ)
       end.

(** [l.copy()] *)
Definition copy (l : loc) : M loc :=
  let! d := read l in new d.

(** [l.update(other)]: the entries of [other] win. *)
Definition update (l : loc) (other : gmap string string) : M unit :=
  λ σ, match dicts σ !! l with
       | Some d =>
           (Ok tt, {| LIBRARIES := LIBRARIES σ;
                      dicts := <[l := other ∪ d]> (dicts σ);
                      colours := colours σ |})
       | None => (Raise (NotModelled "no such dictionary"), σ)
       end.

End Dict.

Module Color.

(** [Qt.GlobalColor.white] and [Qt.GlobalColor.transparent] *)
Definition white : QColor := mkColor 255 255 255 255.
Definition transparent : QColor := mkColor 0 0 0 0.

(** An invalid colour, what [QColor()] is. *)
Definition invalid : QColor := mkColor 0 0 0 255.

Definition with_alpha (c : QColor) (a : Z) : QColor :=
  mkColor (red c) (green c) (blue c) a.

(** The value of the colour object at [l]. *)
Definition read (l : loc) : M QColor :=
  λ σ, match colours σ !! l with
       | Some c => (Ok c, σ)
       | None => (Raise (NotModelled "no such colour"), σ)
       end.

(** [l.setAlpha(a)]: the object at [l] is changed in place. *)
Definition setAlpha (l : loc) (a : Z) : M unit :=
  λ σ, match colours σ !! l with
       | Some c =>
           (Ok tt, {| LIBRARIES := LIBRARIES σ;
                      dicts := dicts σ;
                      colours := <[l := with_alpha c a]> (colours σ) |})
       | None => (Raise (NotModelled "no such colour"), σ)
       end.

End Color.

(** ** Images *)

(** [QImage]: a grid of [img_width] by [img_height] pixels.  A pixel is the
    colour [pixelColor] returns.  The image of a pixmap keeps a pixel
    premultiplied by its alpha, in eight bits a channel: the alpha of a
    colour is kept as it is, and so is an opaque colour; the red, green
    and blue of any other colour are rounded on the way in and out.
    [Image.stored] is what is read of a colour that was written, where
    [premultiplied a v] is what is read of a channel that was written as
    [v] in a pixel of alpha [a]; the toolkit decides it. *)
Record QImage : Type :=
  mkImage { img_width : nat; img_height : nat; pixel_at : nat → nat → QColor }.

(** [QPixmap]: the same grid, held by the window system. *)
Abbreviation QPixmap := QImage (only parsing).

Module Image.

Definition in_range (image : QImage) (x y : nat) : bool :=
  (x <? img_width image)%nat && (y <? img_height image)%nat.

(** [image.pixelColor(x, y)]; an invalid colour outside the image. *)
Definition pixelColor (image : QImage) (x y : nat) : QColor :=
  if in_range image x y then pixel_at image x y else Color.invalid.

Definition stored (premultiplied : Z → Z → Z) (c : QColor) : QColor :=
  if alpha c =? 255 then c
  else mkColor (premultiplied (alpha c) (red c))
               (premultiplied (alpha c) (green c))
               (premultiplied (alpha c) (blue c))
               (alpha c).

(** [image.setPixelColor(x, y, c)]; nothing happens outside the image. *)
Definition setPixelColor (premultiplied : Z → Z → Z) (image : QImage)
    (x y : nat) (c : QColor) : QImage :=
  if in_range image x y then
    mkImage (img_width image) (img_height image)
      (λ x' y', if (x' =? x)%nat && (y' =? y)%nat
                then stored premultiplied c
                else pixel_at image x' y')
  else image.

(** The pixels in row-major order: [y] outside, [x] inside. *)
Definition positions (image : QImage) : list (nat * nat) :=
  y ← seq 0 (img_height image);
  (λ x, (x, y)) <$> seq 0 (img_width image).

Definition row_major (image : QImage) : list QColor :=
  (λ p, pixelColor image p.1 p.2) <$> positions image.

End Image.

Module Pixmap.

(** The null pixmap. *)
Definition null : QPixmap := mkImage 0 0 (λ _ _, Color.invalid).

Definition isNull (pixmap : QPixmap) : bool :=
  (img_width pixmap =? 0)%nat || (img_height pixmap =? 0)%nat.

(** [QPixmap(width, height)] followed by [fill(c)]: a pixmap is null
    unless both sizes are positive, and filling a null pixmap does
    nothing. *)
Definition filled (width height : Z) (c : QColor) : QPixmap :=
  if (0 <? width) && (0 <? height) then
    mkImage (Z.to_nat width) (Z.to_nat height) (λ _ _, c)
  else null.

(** [pixmap.toImage()] and [QPixmap.fromImage(image)] *)
Definition toImage (pixmap : QPixmap) : QImage := pixmap.
Definition fromImage (image : QImage) : QPixmap := image.

(** Painting pixel by pixel: what [QPainter] does to its device. *)
Definition paint (f : nat → nat → QColor → QColor) (pixmap : QPixmap)
  : QPixmap :=
  mkImage (img_width pixmap) (img_height pixmap)
    (λ x y, f x y (pixel_at pixmap x y)).

(** [qt_div_255]: the division by 255 of the raster engine, rounded to
    the nearest. *)
Definition div_255 (x : Z) : Z :=
  Z.shiftr (x + Z.shiftr x 8 + 128) 8.

(** [CompositionMode_SourceIn] with a colour as the source: the raster
    engine multiplies the premultiplied source by the alpha of the
    destination.  The alpha of the outcome is the product of the two
    alphas over 255; where it is 0 every channel is 0, and an opaque
    source over an opaque destination is the source; elsewhere
    [composed s d v] is what is read of the channel [v] of a source of
    alpha [s] over a destination of alpha [d], which the toolkit
    decides. *)
Definition source_in (composed : Z → Z → Z → Z)
    (source destination : QColor) : QColor :=
  let a := div_255 (alpha source * alpha destination) in
  if a =? 0 then Color.transparent
  else if (alpha source =? 255) && (alpha destination =? 255) then source
  else mkColor (composed (alpha source) (alpha destination) (red source))
               (composed (alpha source) (alpha destination) (green source))
               (composed (alpha source) (alpha destination) (blue source))
               a.

(** [QSize.scaled] with [Qt.KeepAspectRatio]: the largest size of the
    aspect ratio of [w] by [h] inside [tw] by [th]. *)
Definition keep_aspect_ratio (w h : nat) (tw th : Z) : Z * Z :=
  if (w =? 0)%nat || (h =? 0)%nat then (tw, th)
  else
    let rw := th * Z.of_nat w / Z.of_nat h in
    if rw <=? tw then (rw, th)
    else (tw, tw * Z.of_nat h / Z.of_nat w).

(** [pixmap.scaled(tw, th, Qt.KeepAspectRatio, mode)], [resample] being
    the transformation of [mode].  A null pixmap and an empty target
    size give the null pixmap, and a pixmap that has the size asked for
    already is returned as it is. *)
Definition scaled (resample : QPixmap → nat → nat → nat → nat → QColor)
    (pixmap : QPixmap) (tw th : Z) : QPixmap :=
  if isNull pixmap then null
  else if (tw <? 1) || (th <? 1) then null
  else
    let (nw, nh) :=
      keep_aspect_ratio (img_width pixmap) (img_height pixmap) tw th in
    let nw := Z.to_nat (Z.max nw 1) in
    let nh := Z.to_nat (Z.max nh 1) in
    if (nw =? img_width pixmap)%nat && (nh =? img_height pixmap)%nat
    then pixmap
    else mkImage nw nh (resample pixmap nw nh).

End Pixmap.

(** ** A small world to run the functions in *)

Module Demo.

(** Where the module is installed. *)
Definition file : string := "/opt/app/iconlib.py".

(** Three file systems: one that has every file, one that has none, and
    one that has none and takes no name of more than 255 characters. *)
Definition every_file : string → Os.stat_result := λ _, Os.StatOk.
Definition no_file : string → Os.stat_result :=
  λ _, Os.StatOSError Os.ENOENT.
Definition short_names : string → Os.stat_result :=
  λ name,
    if existsb (λ part, (255 <? String.length part)%nat)
         (Str.split "/" name)
    then Os.StatOSError Os.ENAMETOOLONG
    else Os.StatOSError Os.ENOENT.

(** A name of 256 characters. *)
Definition long_name : string :=
  string_of_list_ascii (repeat "a"%char 256).

(** A raster icon of two by two pixels: transparent, half opaque,
    opaque, transparent. *)
Definition raster : QPixmap :=
  mkImage 2 2 (λ x y,
    match x, y with
    | 0, 0 => mkColor 10 20 30 0
    | 1, 0 => mkColor 1 2 3 128
    | 0, 1 => mkColor 9 9 9 64
    | _, _ => mkColor 7 7 7 0
    end%nat).

Definition load : string → QPixmap := λ _, raster.

(** A rasteriser that draws a black triangle, with a soft edge. *)
Definition render : string → nat → nat → nat → nat → QColor → QColor :=
  λ _ _ _ x y destination,
    if (x <? y)%nat then mkColor 0 0 0 255
    else if (x =? y)%nat then mkColor 0 0 0 102
    else destination.

(** A rounding of premultiplied pixels: the channel times the alpha over
    255, to the nearest, and back. *)
Definition premultiplied : Z → Z → Z :=
  λ a v, if a =? 0 then 0 else (v * a + 127) / 255 * 255 / a.

Definition composed : Z → Z → Z → Z :=
  λ s d v, premultiplied (Pixmap.div_255 (s * d)) v.

(** A resampler that repeats the first pixel. *)
Definition resample : QPixmap → nat → nat → nat → nat → QColor :=
  λ pixmap _ _ _ _, pixel_at pixmap 0%nat 0%nat.

(** A store with one colour object, an opaque red, at address 7. *)
Definition red_colour : QColor := mkColor 200 0 0 255.

Definition store : Store :=
  {| LIBRARIES := LIBRARIES initial_store;
     dicts := dicts initial_store;
     colours := {[ 7%nat := red_colour ]} |}.

(** A registry with one library more, whose template has a placeholder
    that its defaults do not bind (the template that the example in the
    docstring of the module suggests). *)
Definition tagged_store : Store :=
  {| LIBRARIES :=
       <[ "tagged" := {| cfg_path := Some "{icon}_{colour}.{ext}";
                         cfg_defaults := Some 2%nat |} ]>
         (LIBRARIES initial_store);
     dicts := <[ 2%nat := {[ "ext" := "svg" ]} ]> (dicts initial_store);
     colours := ∅ |}.

(** A raster icon without a visible pixel. *)
Definition blank : QPixmap := mkImage 2 1 (λ _ _, mkColor 5 6 7 0).

(** A raster icon of black pixels: transparent, half opaque, a quarter
    opaque, opaque. *)
Definition shaded : QPixmap :=
  mkImage 2 2 (λ x y,
    match x, y with
    | 0, 0 => mkColor 0 0 0 0
    | 1, 0 => mkColor 0 0 0 128
    | 0, 1 => mkColor 0 0 0 64
    | _, _ => mkColor 0 0 0 255
    end%nat).

(** The keywords of a call: [style="bold"]. *)
Definition bold : list (string * string) := [("style", "bold")].

End Demo.

(** ** The functions of [iconlib.py] *)

Section Iconlib.

Set Default Proof Using "Type".

(** [__file__], the location of the module. *)
Variable module_file : string.

(** The file system: what [os.stat] does with a file name. *)
Variable fs_stat : string → Os.stat_result.

(** [ICONLIB_ROOT = Path(__file__).parent / "icons"] *)
Definition ICONLIB_ROOT : Path :=
  Pathlib.parent (Pathlib.parse module_file) // "icons".

(** [icon_path.exists()]: whether [os.stat] finds the file; of its
    errors, those that say that there is no such file give [False], and
    any other is raised. *)
Definition Path_exists (p : Path) : result bool :=
  match fs_stat (Pathlib.str p) with
  | Os.StatOk => Ok true
  | Os.StatOSError errno =>
      if Os.ignore_error errno then Ok false else Raise (OSError errno)
  | Os.StatValueError => Ok false
  end.

(** The file is on disk: [os.stat] finds it. *)
Definition exists_ (p : Path) : bool :=
  match fs_stat (Pathlib.str p) with
  | Os.StatOk => true
  | _ => false
  end.

(** [sorted(list(LIBRARIES.keys()))] *)
Definition get_library_names : M (list string) :=
  λ σ, (Ok (Str.sorted (elements (dom (LIBRARIES σ)))), σ).

(** [LIBRARIES.get(library)] *)
Definition LIBRARIES_get (library : string) : M (option library_config) :=
  λ σ, (Ok (LIBRARIES σ !! library), σ).

(** [library_config["path"]] *)
Definition config_path (cfg : library_config) : M string :=
  match cfg_path cfg with
  | Some t => ret t
  | None => raise (KeyError "path")
  end.

(** [library_config.get("defaults", {})] *)
Definition config_defaults (cfg : library_config) : M loc :=
  match cfg_defaults cfg with
  | Some l => ret l
  | None => Dict.new ∅
  end.

(** [kwargs] is the dictionary Python binds the keyword arguments to
    that are not parameters: it never has the key ["library"] or
    ["icon"], a call with such a keyword fails before the body runs. *)
Definition get_path (library icon : string) (kwargs : gmap string string)
  : M Path :=
  let! library_config := LIBRARIES_get library in
  match library_config with
  | None =>
      let! names := get_library_names in
      raise (ValueError ("Icon library " +:+ library
                           +:+ " not found. Available libraries: "
                           +:+ Str.repr_list names))
  | Some library_config =>
      let! icon_path_template := config_path library_config in
      let! defaults := config_defaults library_config in
      let! substitutions := Dict.copy defaults in
      Dict.update substitutions {[ "icon" := icon ]} ;;
      Dict.update substitutions kwargs ;;
      let! kw := Dict.read substitutions in
      let! relative_icon_path :=
        lift (Format.format icon_path_template kw) in
      let icon_path := ICONLIB_ROOT // library // relative_icon_path in
      let! there := lift (Path_exists icon_path) in
      if negb there then
        raise (FileNotFoundError
                 ("No icon file found at: " +:+ Pathlib.str icon_path))
      else ret icon_path
  end.

(** The call [get_path(library, icon, **keywords)], the keywords in the
    order of the call and each name once.  Python binds [library] and
    [icon] to the two positional arguments; a keyword of one of these
    names then finds its parameter bound, and the call raises [TypeError]
    before the body runs.  The other keywords are [kwargs]. *)
Definition call_get_path (library icon : string)
    (keywords : list (string * string)) : M Path :=
  match
    List.find (λ kv, String.eqb kv.1 "library" || String.eqb kv.1 "icon")
      keywords
  with
  | Some kv =>
      raise (TypeError ("get_path() got multiple values for argument '"
                          +:+ kv.1 +:+ "'"))
  | None => get_path library icon (list_to_map keywords)
  end.

(** [QPixmap(icon_path)]: the decoded file, the null pixmap when it
    cannot be read. *)
Variable load_pixmap : string → QPixmap.

(** [QSvgRenderer(file).render(painter)] on a device of [w] by [h]
    pixels: the pixel painted at [(x, y)] over the one that was there. *)
Variable svg_render : string → nat → nat → nat → nat → QColor → QColor.

(** [Qt.SmoothTransformation]: the pixel at [(x, y)] of the pixmap
    resampled to [w] by [h]. *)
Variable smooth : QPixmap → nat → nat → nat → nat → QColor.

(** The rounding of a pixel that an image keeps premultiplied, and of a
    pixel that the painter composes (see [Image.stored] and
    [Pixmap.source_in]). *)
Variable premultiplied : Z → Z → Z.
Variable composed : Z → Z → Z → Z.

(** [for x in xs: body], the loop carrying the local [s]. *)
Fixpoint for_each {A S} (xs : list A) (body : A → S → M S) (s : S) : M S :=
  match xs with
  | [] => ret s
  | x :: r => let! s' := body x s in for_each r body s'
  end.

Definition _svg_to_pixmap (filepath : Path) (width height : Z)
    (color : QColor) : QPixmap :=
  let renderer := svg_render (Pathlib.str filepath) in
  let pixmap := Pixmap.filled width height Color.transparent in
  let pixmap :=
    Pixmap.paint
      (renderer (img_width pixmap) (img_height pixmap)) pixmap in
  let pixmap :=
    Pixmap.paint (λ _ _, Pixmap.source_in composed color) pixmap in
  pixmap.

Definition _fill_pixmap_by_alpha (pixmap : QPixmap) (fill_color : loc)
  : M QPixmap :=
  let image := Pixmap.toImage pixmap in
  let width := img_width image in
  let height := img_height image in
  let! image :=
    for_each (seq 0 height) (λ y image,
      for_each (seq 0 width) (λ x image,
        let pixel := Image.pixelColor image x y in
        if 0 <? alpha pixel then
          Color.setAlpha fill_color (alpha pixel) ;;
          let! c := Color.read fill_color in
          ret (Image.setPixelColor premultiplied image x y c)
        else ret image) image) image in
  ret (Pixmap.fromImage image).

(** [width] and [height] default to 20 and [colour] to [None]. *)
Definition get_qpixmap (library icon : string) (width height : Z)
    (colour : option loc) (kwargs : gmap string string) : M QPixmap :=
  let! icon_path := get_path library icon kwargs in
  let! pixmap :=
    if String.eqb (Pathlib.suffix icon_path) ".svg" then
      let! colour :=
        match colour with
        | None => ret Color.white
        | Some l => Color.read l
        end in
      ret (_svg_to_pixmap icon_path width height colour)
    else
      let pixmap := load_pixmap (Pathlib.str icon_path) in
      match colour with
      | Some l => _fill_pixmap_by_alpha pixmap l
      | None => ret pixmap
      end in
  ret (Pixmap.scaled smooth pixmap width height).


(** ** The resolution of a path, as the specification words it *)

(** Entries are added one after the other; an entry added later replaces
    an earlier one of the same key. *)
Definition add_entries (entries : list (string * string))
    (m : gmap string string) : gmap string string :=
  foldl (λ m kv, <[kv.1 := kv.2]> m) m entries.

(** The defaults, then the icon name, then the overrides. *)
Definition merged_substitutions (defaults : gmap string string)
    (icon : string) (overrides : gmap string string) : gmap string string :=
  add_entries (map_to_list overrides)
    (add_entries [("icon", icon)] defaults).

(** The root directory of a library. *)
Definition library_root (library : string) : Path := ICONLIB_ROOT // library.

(** The template is formatted with the merged substitutions, and the
    result joined to the root of the library. *)
Definition resolve_spec (library template : string)
    (defaults : gmap string string) (icon : string)
    (overrides : gmap string string) : result Path :=
  match Format.format template (merged_substitutions defaults icon overrides)
  with
  | Ok relative => Ok (library_root library // relative)
  | Raise e => Raise e
  end.

(** What [get_path] does with the path it has resolved (source lines
    83-86): the path when the file is there, [FileNotFoundError] when it
    is not, and the error of [exists()] when that fails. *)
Definition look_up (p : Path) : result Path :=
  match Path_exists p with
  | Ok true => Ok p
  | Ok false =>
      Raise (FileNotFoundError
               ("No icon file found at: " +:+ Pathlib.str p))
  | Raise e => Raise e
  end.

(** The defaults mapping of a registry entry: the dictionary the entry
    refers to, and the empty one when the entry has none. *)
Definition defaults_of (σ : Store) (cfg : library_config)
  : option (gmap string string) :=
  match cfg_defaults cfg with
  | Some l => dicts σ !! l
  | None => Some ∅
  end.

(** The registry as a caller reads it: for each library its path template
    and its defaults mapping. *)
Definition registry (σ : Store)
  : gmap string (option string * option (gmap string string)) :=
  (λ cfg, (cfg_path cfg, defaults_of σ cfg)) <$> LIBRARIES σ.

(** No entry of the registry refers to a dictionary that is not there. *)
Definition well_formed (σ : Store) : Prop :=
  ∀ name cfg l,
    LIBRARIES σ !! name = Some cfg → cfg_defaults cfg = Some l →
    is_Some (dicts σ !! l).

(** From [σ] to [σ'] the registry is what it was: [LIBRARIES] has the same
    entries, and every dictionary of [σ] is in [σ'] with the same
    contents. *)
Definition registry_kept (σ σ' : Store) : Prop :=
  LIBRARIES σ' = LIBRARIES σ ∧ dicts σ ⊆ dicts σ'.

(** Nothing a caller had before has changed. *)
Definition nothing_changed (σ σ' : Store) : Prop :=
  registry_kept σ σ' ∧ colours σ' = colours σ.

(** The pixel [_fill_pixmap_by_alpha] leaves where [pixel] was. *)
Definition recoloured (fill pixel : QColor) : QColor :=
  if 0 <? alpha pixel
  then Image.stored premultiplied (Color.with_alpha fill (alpha pixel))
  else pixel.

(** The pixels of an image that are not fully transparent, in the order
    of the scan. *)
Definition visible (image : QImage) : list QColor :=
  List.filter (λ pixel, 0 <? alpha pixel) (Image.row_major image).

(** One step of the scan of [_fill_pixmap_by_alpha], on the image and the
    value of the fill colour, and the scan of a list of positions. *)
Definition visit (p : nat * nat) (s : QImage * QColor) : QImage * QColor :=
  let pixel := Image.pixelColor s.1 p.1 p.2 in
  if 0 <? alpha pixel then
    let c := Color.with_alpha s.2 (alpha pixel) in
    (Image.setPixelColor premultiplied s.1 p.1 p.2 c, c)
  else s.

Definition scan (ps : list (nat * nat)) (s : QImage * QColor)
  : QImage * QColor :=
  foldl (λ s p, visit p s) s ps.

(** The same step as the source has it, on the colour object at [l]. *)
Definition visit_object (l : loc) (p : nat * nat) (image : QImage)
  : M QImage :=
  let pixel := Image.pixelColor image p.1 p.2 in
  if 0 <? alpha pixel then
    Color.setAlpha l (alpha pixel) ;;
    let! c := Color.read l in
    ret (Image.setPixelColor premultiplied image p.1 p.2 c)
  else ret image.

(** The colour the scan of [ps] leaves in the colour object: the fill
    colour with the alpha of the last pixel of [ps] that is not fully
    transparent. *)
Definition colour_after (image : QImage) (c0 : QColor)
    (ps : list (nat * nat)) : QColor :=
  match
    last (List.filter (λ pixel, 0 <? alpha pixel)
            ((λ p, Image.pixelColor image p.1 p.2) <$> ps))
  with
  | Some pixel => Color.with_alpha c0 (alpha pixel)
  | None => c0
  end.

(** The registry of [σ] is the one the module defines. *)
Definition registry_intact (σ : Store) : Prop :=
  LIBRARIES σ = LIBRARIES initial_store ∧ dicts initial_store ⊆ dicts σ.

(** The default file extension of a library: the ["ext"] of its
    defaults. *)
Definition default_ext (σ : Store) (library : string) : option string :=
  cfg ← LIBRARIES σ !! library;
  d ← defaults_of σ cfg;
  d !! "ext".

(** * Properties *)

(** ** Strings and paths *)

Lemma sapp_nil_l (s : string) : "" +:+ s = s.
Proof. reflexivity. Qed.

Lemma sapp_cons (a : ascii) (s t : string) :
  String a s +:+ t = String a (s +:+ t).
Proof. reflexivity. Qed.

Lemma sapp_nil_r (s : string) : s +:+ "" = s.
Proof. induction s as [|a s IH]; [done|]. by rewrite sapp_cons, IH. Qed.

Lemma sapp_assoc (s t u : string) : (s +:+ t) +:+ u = s +:+ t +:+ u.
Proof.
  induction s as [|a s IH]; [done|]. by rewrite !sapp_cons, IH.
Qed.

Lemma endswith_unfold (s e : string) :
  Str.endswith s e =
    if String.eqb s e then true
    else match s with
         | EmptyString => false
         | String _ r => Str.endswith r e
         end.
Proof. by destruct s. Qed.

Lemma endswith_iff (s e : string) :
  Str.endswith s e = true ↔ ∃ p, s = p +:+ e.
Proof.
  induction s as [|a s IH]; rewrite endswith_unfold.
  - destruct (String.eqb_spec "" e) as [<-|Hne].
    + split; [by exists ""|done].
    + split; [done|]. intros [[|b p] Hp]; [by destruct Hne|discriminate].
  - destruct (String.eqb_spec (String a s) e) as [<-|Hne].
    + split; [by exists ""|done].
    + rewrite IH. split.
      * intros [p ->]. by exists (String a p).
      * intros [[|b p] Hp]; [by destruct Hne|].
        rewrite sapp_cons in Hp. injection Hp as -> ->. by exists p.
Qed.

Lemma endswith_app (p e : string) : Str.endswith (p +:+ e) e = true.
Proof. apply endswith_iff. by exists p. Qed.

Lemma endswith_nil (s : string) : Str.endswith s "" = true.
Proof. apply endswith_iff. exists s. by rewrite sapp_nil_r. Qed.

Lemma endswith_trans (s m e : string) :
  Str.endswith s m = true → Str.endswith m e = true →
  Str.endswith s e = true.
Proof.
  rewrite !endswith_iff. intros [p ->] [q ->].
  exists (p +:+ q). by rewrite sapp_assoc.
Qed.

Lemma split_not_nil (c : ascii) (s : string) : Str.split c s ≠ [].
Proof.
  destruct s as [|a s]; simpl; [done|].
  destruct (Ascii.eqb a c); [done|]. by destruct (Str.split c s).
Qed.

Lemma split_no_sep (c : ascii) (s : string) :
  Str.contains c s = false → Str.split c s = [s].
Proof.
  induction s as [|a s IH]; simpl; [done|].
  intros [Ha Hs]%orb_false_iff. by rewrite Ha, IH.
Qed.

(** Appending text without separator only grows the last field. *)
Lemma split_app_no_sep (c : ascii) (a b : string) :
  Str.contains c b = false →
  Str.split c (a +:+ b) =
    removelast (Str.split c a) ++ [List.last (Str.split c a) "" +:+ b].
Proof.
  intros Hb. induction a as [|x r IH].
  - rewrite sapp_nil_l. by rewrite split_no_sep.
  - rewrite sapp_cons. cbn [Str.split]. rewrite IH.
    pose proof (split_not_nil c r) as Hne.
    destruct (Ascii.eqb x c).
    + destruct (Str.split c r) as [|w ws]; [done|]. reflexivity.
    + destruct (Str.split c r) as [|w ws]; [done|].
      destruct ws as [|w' ws]; reflexivity.
Qed.

Lemma join_snoc_endswith (sep : string) (l : list string) (x : string) :
  Str.endswith (Str.join sep (l ++ [x])) x = true.
Proof.
  induction l as [|y l IH]; simpl.
  - apply endswith_iff. by exists "".
  - destruct (l ++ [x]) as [|z l'] eqn:E.
    + by destruct l.
    + apply endswith_iff in IH as [p Hp]. apply endswith_iff.
      exists (y +:+ sep +:+ p). rewrite !sapp_assoc. by rewrite <- Hp.
Qed.

Lemma str_endswith_last (p : Path) (l : list string) (x : string) :
  parts p = l ++ [x] → Str.endswith (Pathlib.str p) x = true.
Proof.
  intros Hp. unfold Pathlib.str. rewrite Hp.
  assert (Str.endswith (anchor p +:+ Str.join "/" (l ++ [x])) x = true)
    as H.
  { pose proof (join_snoc_endswith "/" l x) as [q Hq]%endswith_iff.
    apply endswith_iff. exists (anchor p +:+ q).
    by rewrite sapp_assoc, <- Hq. }
  destruct (anchor p); [|done]. by destruct l.
Qed.

(** The last component of a parsed path, when the text ends in a field
    that pathlib keeps. *)
Lemma parts_of_app_no_sep (a b : string) :
  Str.contains "/" b = false →
  Pathlib.keep_part (List.last (Str.split "/" a) "" +:+ b) = true →
  ∃ l, Pathlib.parts_of (a +:+ b)
       = l ++ [List.last (Str.split "/" a) "" +:+ b].
Proof.
  intros Hb Hk. unfold Pathlib.parts_of.
  rewrite split_app_no_sep by done.
  rewrite List.filter_app. simpl. rewrite Hk. eauto.
Qed.

Lemma joinpath_parts_snoc (p : Path) (s : string) (l : list string)
    (x : string) :
  Pathlib.parts_of s = l ++ [x] → ∃ l', parts (p // s) = l' ++ [x].
Proof.
  intros Hs. unfold Pathlib.joinpath.
  destruct (Pathlib.is_absolute s); simpl; rewrite Hs.
  - eauto.
  - exists (parts p ++ l). by rewrite <- (assoc_L (++)).
Qed.

(** ** Formatting *)

Lemma render_agree (segs : list Format.segment) (m1 m2 : gmap string string) :
  (∀ k, k ∈ Format.field_names segs → m1 !! k = m2 !! k) →
  Format.render segs m1 = Format.render segs m2.
Proof.
  induction segs as [|[c|name] segs IH]; intros Hag; simpl in *.
  - done.
  - by rewrite IH.
  - unfold Format.get_value. rewrite (Hag name) by left.
    rewrite IH; [done|]. intros k Hk. apply Hag. by right.
Qed.

(** Formatting reads the placeholders of the template and nothing else. *)
Lemma format_agree (t : string) (m1 m2 : gmap string string) :
  (∀ k, k ∈ Format.placeholders t → m1 !! k = m2 !! k) →
  Format.format t m1 = Format.format t m2.
Proof.
  unfold Format.format, Format.placeholders.
  destruct (Format.scan t None) as [segs e]. cbn [fst]. intros Hag.
  by rewrite (render_agree segs m1 m2).
Qed.

(** A template that the scan reads to its end is formatted by filling in
    its segments. *)
Lemma parse_Ok (t : string) (segs : list Format.segment) :
  Format.parse t None = Ok segs → Format.scan t None = (segs, None).
Proof.
  unfold Format.parse. destruct (Format.scan t None) as [segs' [e|]]; [done|].
  by intros [= ->].
Qed.

Lemma format_parse (t : string) (segs : list Format.segment)
    (m : gmap string string) :
  Format.parse t None = Ok segs → Format.format t m = Format.render segs m.
Proof.
  intros Hparse%parse_Ok. unfold Format.format. rewrite Hparse.
  by destruct (Format.render segs m).
Qed.

(** The templates of the registry. *)
Lemma format_icon_style_ext (m : gmap string string) (i s e : string) :
  m !! "icon" = Some i → m !! "style" = Some s → m !! "ext" = Some e →
  Format.format "{icon}/{style}.{ext}" m = Ok (i +:+ "/" +:+ s +:+ "." +:+ e).
Proof.
  intros Hi Hs He.
  rewrite (format_parse _
             [Format.Field "icon"; Format.Lit "/"; Format.Field "style";
              Format.Lit "."; Format.Field "ext"]) by reflexivity.
  cbn [Format.render]. unfold Format.get_value.
  change (Format.all_digits "icon") with false.
  change (Format.all_digits "style") with false.
  change (Format.all_digits "ext") with false.
  rewrite Hi, Hs, He. by rewrite sapp_nil_r.
Qed.

(** ** The merge of the substitutions *)

Lemma add_entries_union (l : list (string * string)) (m : gmap string string) :
  NoDup l.*1 → add_entries l m = list_to_map l ∪ m.
Proof.
  revert m. induction l as [|[k v] l IH]; intros m Hnd.
  - simpl. by rewrite (left_id_L ∅ (∪)).
  - rewrite fmap_cons in Hnd. apply NoDup_cons in Hnd as [Hk Hnd].
    change (add_entries ((k, v) :: l) m) with (add_entries l (<[k:=v]> m)).
    rewrite IH by done. rewrite list_to_map_cons.
    rewrite <- insert_union_l. symmetry.
    apply insert_union_r. by apply not_elem_of_list_to_map_1.
Qed.

Lemma merged_substitutions_union (d : gmap string string) (icon : string)
    (kw : gmap string string) :
  merged_substitutions d icon kw = kw ∪ ({[ "icon" := icon ]} ∪ d).
Proof.
  unfold merged_substitutions.
  rewrite add_entries_union by apply NoDup_fst_map_to_list.
  rewrite list_to_map_to_list. f_equal.
  unfold add_entries. simpl. by rewrite insert_union_singleton_l.
Qed.

(** Later entries win: the overrides over the icon name, the icon name
    over the defaults. *)
Lemma merged_substitutions_lookup (d : gmap string string) (icon : string)
    (kw : gmap string string) (k : string) :
  merged_substitutions d icon kw !! k =
    match kw !! k with
    | Some v => Some v
    | None => if decide (k = "icon") then Some icon else d !! k
    end.
Proof.
  rewrite merged_substitutions_union.
  destruct (kw !! k) as [v|] eqn:Hk.
  - by apply lookup_union_Some_l.
  - rewrite lookup_union_r by done.
    rewrite <- insert_union_singleton_l.
    rewrite lookup_insert. by repeat case_decide.
Qed.

(** ** [get_path] *)

(** A path that is handed out is the path that was looked up, and it is
    on disk. *)
Lemma look_up_Ok (p q : Path) :
  look_up p = Ok q → q = p ∧ exists_ p = true.
Proof.
  unfold look_up, Path_exists, exists_.
  destruct (fs_stat (Pathlib.str p)) as [|errno|]; [by intros [= <-]| |done].
  by destruct (Os.ignore_error errno).
Qed.

(** The store after a call that found the library: one dictionary more. *)
Lemma get_path_registered (σ : Store) (library icon : string)
    (kwargs : gmap string string) (cfg : library_config) (t : string)
    (d : gmap string string) :
  LIBRARIES σ !! library = Some cfg → cfg_path cfg = Some t →
  defaults_of σ cfg = Some d →
  (get_path library icon kwargs σ).1
    = match Format.format t (kwargs ∪ ({[ "icon" := icon ]} ∪ d)) with
      | Ok relative => look_up (ICONLIB_ROOT // library // relative)
      | Raise e => Raise e
      end.
Proof.
  intros HL Ht Hd. unfold defaults_of in Hd.
  unfold get_path, bind, LIBRARIES_get. rewrite HL.
  unfold config_path, config_defaults. rewrite Ht.
  destruct (cfg_defaults cfg) as [l|]; simplify_eq/=.
  - unfold ret, Dict.copy, bind, Dict.read. rewrite Hd.
    unfold Dict.new, Dict.update. cbn [dicts].
    rewrite lookup_insert_eq. cbn [dicts]. rewrite lookup_insert_eq.
    cbn [dicts]. rewrite lookup_insert_eq. unfold lift.
    destruct (Format.format _ _) as [relative|e]; [|done].
    cbn zeta. unfold raise, look_up.
    by destruct (Path_exists _) as [[]|].
  - unfold Dict.new, Dict.copy, bind, Dict.read. cbn [dicts].
    rewrite lookup_insert_eq. unfold Dict.new, Dict.update. cbn [dicts].
    rewrite lookup_insert_eq. cbn [dicts]. rewrite lookup_insert_eq.
    cbn [dicts]. rewrite lookup_insert_eq. unfold lift.
    destruct (Format.format _ _) as [relative|e]; [|done].
    cbn zeta. unfold raise, ret, look_up.
    by destruct (Path_exists _) as [[]|].
Qed.

Lemma get_path_unregistered (σ : Store) (library icon : string)
    (kwargs : gmap string string) :
  LIBRARIES σ !! library = None →
  get_path library icon kwargs σ
    = (Raise (ValueError
                ("Icon library " +:+ library
                   +:+ " not found. Available libraries: "
                   +:+ Str.repr_list
                         (Str.sorted (elements (dom (LIBRARIES σ)))))), σ).
Proof.
  intros HL. unfold get_path, bind, LIBRARIES_get. by rewrite HL.
Qed.

Lemma fresh_dict_None (D : gmap loc (gmap string string)) :
  D !! fresh (dom D) = None.
Proof. apply not_elem_of_dom, is_fresh. Qed.

(** Whatever the arguments, a call leaves every dictionary it found as it
    was, and the colours too. *)
Lemma get_path_nothing_changed (σ : Store) (library icon : string)
    (kwargs : gmap string string) :
  nothing_changed σ (get_path library icon kwargs σ).2.
Proof.
  assert (Hrefl : nothing_changed σ σ) by done.
  assert (Hins : ∀ m, nothing_changed σ
            {| LIBRARIES := LIBRARIES σ;
               dicts := <[fresh (dom (dicts σ)) := m]> (dicts σ);
               colours := colours σ |}).
  { intros m. repeat split; simpl. apply insert_subseteq, fresh_dict_None. }
  unfold get_path, bind, LIBRARIES_get.
  destruct (LIBRARIES σ !! library) as [cfg|]; [|done].
  unfold config_path, config_defaults.
  destruct (cfg_path cfg) as [t|]; [|done].
  destruct (cfg_defaults cfg) as [l|].
  - unfold ret, Dict.copy, bind, Dict.read.
    destruct (dicts σ !! l) as [d|]; [|done].
    unfold Dict.new, Dict.update. cbn [dicts].
    rewrite lookup_insert_eq. cbn [dicts]. rewrite lookup_insert_eq.
    cbn [dicts]. rewrite lookup_insert_eq. unfold lift.
    cbn [dicts LIBRARIES colours]. rewrite !insert_insert_eq.
    destruct (Format.format _ _) as [relative|e]; [|apply Hins].
    cbn zeta. unfold raise.
    destruct (Path_exists _) as [[]|]; apply Hins.
  - unfold ret, Dict.new, Dict.copy, bind, Dict.read. cbn [dicts].
    rewrite lookup_insert_eq. unfold Dict.new, Dict.update. cbn [dicts].
    rewrite lookup_insert_eq. cbn [dicts]. rewrite lookup_insert_eq.
    cbn [dicts]. rewrite lookup_insert_eq. unfold lift.
    cbn [dicts LIBRARIES colours]. rewrite !insert_insert_eq.
    set (D1 := <[fresh (dom (dicts σ)) := ∅]> (dicts σ)).
    assert (nothing_changed σ
              {| LIBRARIES := LIBRARIES σ;
                 dicts := <[fresh (dom D1) :=
                              kwargs ∪ ({[ "icon" := icon ]} ∪ ∅)]> D1;
                 colours := colours σ |}) as Hfin.
    { repeat split; simpl. etrans.
      - apply (insert_subseteq (dicts σ)), fresh_dict_None.
      - apply insert_subseteq, fresh_dict_None. }
    destruct (Format.format _ _) as [relative|e]; [|apply Hfin].
    cbn zeta. unfold raise, ret.
    destruct (Path_exists _) as [[]|]; apply Hfin.
Qed.

(** ** Loops *)

Lemma for_each_app {A S} (l1 l2 : list A) (f : A → S → M S) (s : S)
    (σ : Store) :
  for_each (l1 ++ l2) f s σ
    = (let! s' := for_each l1 f s in for_each l2 f s') σ.
Proof.
  revert s σ. induction l1 as [|x l1 IH]; intros s σ; simpl.
  - done.
  - unfold bind in *. destruct (f x s σ) as [[s'|e] σ']; [|done].
    apply IH.
Qed.

Lemma for_each_fmap {A B S} (g : A → B) (l : list A) (f : B → S → M S)
    (s : S) (σ : Store) :
  for_each (g <$> l) f s σ = for_each l (λ a, f (g a)) s σ.
Proof.
  revert s σ. induction l as [|x l IH]; intros s σ; simpl; [done|].
  unfold bind. destruct (f (g x) s σ) as [[s'|e] σ']; [|done]. apply IH.
Qed.

(** Two nested loops are one loop over the pairs, the outer index
    changing slowest. *)
Lemma for_each_nested {S} (ys xs : list nat) (f : nat * nat → S → M S)
    (s : S) (σ : Store) :
  for_each ys (λ y s, for_each xs (λ x s, f (x, y) s) s) s σ
    = for_each (y ← ys; (λ x, (x, y)) <$> xs) f s σ.
Proof.
  revert s σ. induction ys as [|y ys IH]; intros s σ; [done|].
  cbn [for_each mbind list_bind]. rewrite for_each_app.
  unfold bind. rewrite for_each_fmap.
  destruct (for_each xs _ s σ) as [[s'|e] σ']; [|done]. apply IH.
Qed.

(** ** The positions of an image *)

Lemma elem_of_positions (image : QImage) (x y : nat) :
  (x, y) ∈ Image.positions image
  ↔ (x < img_width image)%nat ∧ (y < img_height image)%nat.
Proof.
  unfold Image.positions. rewrite list_elem_of_bind. split.
  - intros (y' & Hx & Hy). apply list_elem_of_fmap in Hx as (x' & ? & Hx).
    simplify_eq. apply elem_of_seq in Hx, Hy. lia.
  - intros [Hx Hy]. exists y. split.
    + apply list_elem_of_fmap. exists x. split; [done|].
      apply elem_of_seq. lia.
    + apply elem_of_seq. lia.
Qed.

Lemma NoDup_positions (image : QImage) : NoDup (Image.positions image).
Proof.
  unfold Image.positions. apply NoDup_bind.
  - intros y1 y2 [x y] _ _ H1 H2.
    apply list_elem_of_fmap in H1 as (? & ? & _).
    apply list_elem_of_fmap in H2 as (? & ? & _). by simplify_eq.
  - intros y _. apply NoDup_fmap; [|apply NoDup_seq].
    intros ???. by simplify_eq.
  - apply NoDup_seq.
Qed.

(** ** The scan of [_fill_pixmap_by_alpha] *)

(** The image keeps the alpha of a colour, and an opaque colour. *)
Lemma alpha_stored (c : QColor) :
  alpha (Image.stored premultiplied c) = alpha c.
Proof. unfold Image.stored. by destruct (alpha c =? 255). Qed.

Lemma stored_opaque (c : QColor) :
  alpha c = 255 → Image.stored premultiplied c = c.
Proof. intros Hc. unfold Image.stored. by rewrite Hc. Qed.

Lemma with_alpha_with_alpha (c : QColor) (a b : Z) :
  Color.with_alpha (Color.with_alpha c a) b = Color.with_alpha c b.
Proof. reflexivity. Qed.

Lemma scan_snoc (ps : list (nat * nat)) (p : nat * nat)
    (s : QImage * QColor) :
  scan (ps ++ [p]) s = visit p (scan ps s).
Proof. unfold scan. by rewrite foldl_app. Qed.

Lemma with_alpha_colour_after (image : QImage) (c0 : QColor)
    (ps : list (nat * nat)) (a : Z) :
  Color.with_alpha (colour_after image c0 ps) a = Color.with_alpha c0 a.
Proof. unfold colour_after. by destruct (last _). Qed.

Lemma scan_spec (image : QImage) (c0 : QColor) (ps : list (nat * nat)) :
  NoDup ps →
  (∀ x y, (x, y) ∈ ps → Image.in_range image x y = true) →
  img_width (scan ps (image, c0)).1 = img_width image
  ∧ img_height (scan ps (image, c0)).1 = img_height image
  ∧ (∀ x y, pixel_at (scan ps (image, c0)).1 x y
            = if bool_decide ((x, y) ∈ ps)
              then recoloured c0 (pixel_at image x y)
              else pixel_at image x y)
  ∧ (scan ps (image, c0)).2 = colour_after image c0 ps.
Proof.
  induction ps as [|[x0 y0] ps IH] using rev_ind; intros Hnd Hin.
  - by repeat split.
  - apply NoDup_app in Hnd as (Hnd & Hnot & _).
    assert (Hp : (x0, y0) ∉ ps).
    { intros Hp. apply (Hnot _ Hp). by left. }
    destruct IH as (Hw & Hh & Hpix & Hcol); [done| |].
    { intros x y Hxy. apply Hin, elem_of_app. by left. }
    assert (Hr : Image.in_range image x0 y0 = true).
    { apply Hin, elem_of_app. right. by left. }
    rewrite scan_snoc. destruct (scan ps (image, c0)) as [image' c'].
    simpl in Hw, Hh, Hpix, Hcol.
    assert (Hr' : Image.in_range image' x0 y0 = true).
    { unfold Image.in_range in *. by rewrite Hw, Hh. }
    assert (Hold : Image.pixelColor image' x0 y0 = pixel_at image x0 y0).
    { unfold Image.pixelColor. rewrite Hr', Hpix.
      by rewrite bool_decide_eq_false_2. }
    assert (Hold' : Image.pixelColor image x0 y0 = pixel_at image x0 y0).
    { unfold Image.pixelColor. by rewrite Hr. }
    assert (Hother : ∀ x y, (x, y) ≠ (x0, y0) →
              bool_decide ((x, y) ∈ ps ++ [(x0, y0)])
              = bool_decide ((x, y) ∈ ps)).
    { intros x y Hne. apply bool_decide_ext.
      rewrite elem_of_app, list_elem_of_singleton.
      split; [intros [?|?]; [done|congruence]|by left]. }
    unfold visit. cbn [fst snd]. rewrite Hold.
    unfold colour_after. rewrite fmap_app, List.filter_app.
    cbn [fmap list_fmap List.filter fst snd]. rewrite Hold'.
    destruct (0 <? alpha (pixel_at image x0 y0)) eqn:Hvis.
    + unfold Image.setPixelColor. rewrite Hr'. cbn [fst snd img_width
        img_height pixel_at]. repeat split; [done..| |].
      * intros x y.
        destruct (Nat.eqb_spec x x0) as [->|Hx];
          [destruct (Nat.eqb_spec y y0) as [->|Hy]|]; cbn [andb].
        -- rewrite bool_decide_eq_true_2
             by (apply elem_of_app; right; by left).
           unfold recoloured. rewrite Hvis, Hcol.
           by rewrite with_alpha_colour_after.
        -- rewrite Hpix, Hother; [done|congruence].
        -- rewrite Hpix, Hother; [done|congruence].
      * rewrite last_snoc, Hcol. apply with_alpha_colour_after.
    + cbn [fst snd]. rewrite (right_id_L [] (++)).
      repeat split; [done..| |done].
      intros x y. rewrite Hpix.
      destruct (decide ((x, y) = (x0, y0))) as [Heq|Hne].
      * injection Heq as -> ->. rewrite bool_decide_eq_false_2 by done.
        rewrite bool_decide_eq_true_2
          by (apply elem_of_app; right; by left).
        unfold recoloured. by rewrite Hvis.
      * by rewrite Hother.
Qed.

(** One step on the colour object is one step on its value. *)
Lemma visit_object_run (l : loc) (p : nat * nat) (image : QImage)
    (c : QColor) (σ : Store) :
  colours σ !! l = Some c →
  ∃ σ', visit_object l p image σ = (Ok (visit p (image, c)).1, σ')
        ∧ LIBRARIES σ' = LIBRARIES σ ∧ dicts σ' = dicts σ
        ∧ colours σ' = <[l := (visit p (image, c)).2]> (colours σ).
Proof.
  intros Hc. unfold visit_object, visit. cbn [fst snd].
  destruct (0 <? alpha (Image.pixelColor image p.1 p.2)).
  - unfold bind, Color.setAlpha, Color.read, ret. rewrite Hc.
    cbn [colours]. rewrite lookup_insert_eq. eexists. by repeat split.
  - exists σ. repeat split. simpl. by rewrite insert_id.
Qed.

(** The loop on the colour object computes the scan, and leaves its
    colour in the object. *)
Lemma for_each_visit (l : loc) (ps : list (nat * nat)) (image : QImage)
    (c : QColor) (σ : Store) :
  colours σ !! l = Some c →
  ∃ σ', for_each ps (visit_object l) image σ
          = (Ok (scan ps (image, c)).1, σ')
        ∧ LIBRARIES σ' = LIBRARIES σ ∧ dicts σ' = dicts σ
        ∧ colours σ' = <[l := (scan ps (image, c)).2]> (colours σ).
Proof.
  revert image c σ. induction ps as [|p ps IH]; intros image c σ Hc.
  - exists σ. repeat split. simpl. by rewrite insert_id.
  - cbn [for_each]. unfold bind.
    change (scan (p :: ps) (image, c)) with (scan ps (visit p (image, c))).
    destruct (visit_object_run l p image c σ Hc)
      as (σ1 & -> & HL1 & Hd1 & Hc1).
    destruct (visit p (image, c)) as [image1 c1]. cbn [fst snd] in *.
    destruct (IH image1 c1 σ1) as (σ' & -> & HL & Hd & Hcol).
    { rewrite Hc1. apply lookup_insert_eq. }
    exists σ'. repeat split; [congruence..|].
    rewrite Hcol, Hc1. apply insert_insert_eq.
Qed.

Lemma fill_pixmap_by_alpha_run (pixmap : QPixmap) (l : loc) (c : QColor)
    (σ : Store) :
  colours σ !! l = Some c →
  ∃ σ', _fill_pixmap_by_alpha pixmap l σ
          = (Ok (scan (Image.positions pixmap) (pixmap, c)).1, σ')
        ∧ LIBRARIES σ' = LIBRARIES σ ∧ dicts σ' = dicts σ
        ∧ colours σ'
          = <[l := (scan (Image.positions pixmap) (pixmap, c)).2]>
              (colours σ).
Proof.
  intros Hc.
  change (_fill_pixmap_by_alpha pixmap l σ)
    with ((let! image :=
             for_each (seq 0 (img_height pixmap)) (λ y s,
               for_each (seq 0 (img_width pixmap))
                 (λ x s, visit_object l (x, y) s) s) pixmap in
           ret image) σ).
  unfold bind. rewrite for_each_nested.
  destruct (for_each_visit l (Image.positions pixmap) pixmap c σ Hc)
    as (σ' & Hrun & HL & Hd & Hcol).
  unfold Image.positions in Hrun at 1. rewrite Hrun. by exists σ'.
Qed.

(** Whether the colour object is there or not, the scan leaves the
    registry alone. *)
Lemma fill_pixmap_by_alpha_store (pixmap : QPixmap) (l : loc) (σ : Store) :
  registry_kept σ (_fill_pixmap_by_alpha pixmap l σ).2.
Proof.
  destruct (colours σ !! l) as [c|] eqn:Hc.
  - destruct (fill_pixmap_by_alpha_run pixmap l c σ Hc)
      as (σ' & -> & HL & Hd & _).
    split; simpl; [done|]. by rewrite Hd.
  - change (_fill_pixmap_by_alpha pixmap l σ)
      with ((let! image :=
               for_each (seq 0 (img_height pixmap)) (λ y s,
                 for_each (seq 0 (img_width pixmap))
                   (λ x s, visit_object l (x, y) s) s) pixmap in
             ret image) σ).
    unfold bind. rewrite for_each_nested.
    assert (∀ ps image, (for_each ps (visit_object l) image σ).2 = σ) as H.
    { induction ps as [|p ps IH]; intros image; [done|].
      cbn [for_each]. unfold bind, visit_object.
      destruct (0 <? alpha (Image.pixelColor image p.1 p.2)).
      - unfold bind, Color.setAlpha. by rewrite Hc.
      - unfold ret. apply IH. }
    specialize (H (y ← seq 0 (img_height pixmap);
                   (λ x, (x, y)) <$> seq 0 (img_width pixmap)) pixmap).
    destruct (for_each _ _ _ _) as [[image|e] σ']; simpl in H; by subst.
Qed.

(** ** Substrings *)

Lemma substring_of_trans (a b c : string) :
  Str.substring_of a b → Str.substring_of b c → Str.substring_of a c.
Proof.
  intros (p1 & q1 & ->) (p2 & q2 & ->).
  exists (p2 +:+ p1), (q1 +:+ q2). by rewrite !sapp_assoc.
Qed.

Lemma substring_of_app (pre s post : string) :
  Str.substring_of s (pre +:+ s +:+ post).
Proof. by exists pre, post. Qed.

Lemma elem_of_join_substring (sep : string) (l : list string) (x : string) :
  x ∈ l → Str.substring_of x (Str.join sep l).
Proof.
  induction l as [|y l IH]; intros Hx; [by apply elem_of_nil in Hx|].
  apply elem_of_cons in Hx as [->|Hx].
  - destruct l as [|z l]; simpl.
    + exists "", "". by rewrite sapp_nil_r.
    + apply (substring_of_app "").
  - destruct l as [|z l]; [by apply elem_of_nil in Hx|].
    apply (substring_of_trans _ (Str.join sep (z :: l))); [by apply IH|].
    exists (y +:+ sep), "".
    change (Str.join sep (y :: z :: l))
      with (y +:+ sep +:+ Str.join sep (z :: l)).
    by rewrite sapp_nil_r, sapp_assoc.
Qed.

(** The printed list shows each of its names. *)
Lemma elem_of_repr_list_substring (l : list string) (x : string) :
  x ∈ l → Str.substring_of x (Str.repr_list l).
Proof.
  intros Hx. unfold Str.repr_list.
  apply (substring_of_trans _ (Str.repr x)); [apply substring_of_app|].
  apply (substring_of_trans _ (Str.join ", " (Str.repr <$> l)));
    [|apply substring_of_app].
  apply elem_of_join_substring. by apply list_elem_of_fmap_2.
Qed.

(** ** [get_library_names] *)

Lemma sorted_spec (l : list string) :
  Sorted String.le (Str.sorted l) ∧ Str.sorted l ≡ₚ l.
Proof.
  split; [apply (Sorted_merge_sort String.le)|apply merge_sort_Permutation].
Qed.

Lemma elem_of_library_names (σ : Store) (name : string) :
  name ∈ Str.sorted (elements (dom (LIBRARIES σ)))
  ↔ is_Some (LIBRARIES σ !! name).
Proof.
  destruct (sorted_spec (elements (dom (LIBRARIES σ)))) as [_ Hp].
  rewrite Hp, elem_of_elements. apply elem_of_dom.
Qed.

(** C5: [get_library_names] returns exactly the keys of the registry, in
    ascending order and each one once: the list is sorted, has no
    duplicates, and a name is in it if and only if it is a key of
    [LIBRARIES]; the call raises nothing and changes nothing. *)
Theorem get_library_names_sorted_keys (σ : Store) :
  ∃ names,
    get_library_names σ = (Ok names, σ)
    ∧ Sorted String.le names
    ∧ NoDup names
    ∧ ∀ name, name ∈ names ↔ is_Some (LIBRARIES σ !! name).
Proof.
  exists (Str.sorted (elements (dom (LIBRARIES σ)))).
  destruct (sorted_spec (elements (dom (LIBRARIES σ)))) as [Hs Hp].
  repeat split; [done| |apply elem_of_library_names..].
  rewrite Hp. apply NoDup_elements.
Qed.

(** The registry of the module lists as ["internal"], ["material"]. *)
Lemma get_library_names_initial :
  get_library_names initial_store
    = (Ok ["internal"; "material"], initial_store).
Proof. reflexivity. Qed.

(** ** [get_qpixmap] *)

Lemma registry_kept_trans (σ1 σ2 σ3 : Store) :
  registry_kept σ1 σ2 → registry_kept σ2 σ3 → registry_kept σ1 σ3.
Proof.
  intros [HL1 Hd1] [HL2 Hd2]. split; [congruence|by etrans].
Qed.

(** An exception of [get_path] is the exception of [get_qpixmap]. *)
Lemma get_qpixmap_raise (σ σ' : Store) (library icon : string)
    (width height : Z) (colour : option loc) (kwargs : gmap string string)
    (e : exception) :
  get_path library icon kwargs σ = (Raise e, σ') →
  get_qpixmap library icon width height colour kwargs σ = (Raise e, σ').
Proof. intros H. unfold get_qpixmap, bind. by rewrite H. Qed.

Lemma get_qpixmap_registry_kept (σ : Store) (library icon : string)
    (width height : Z) (colour : option loc)
    (kwargs : gmap string string) :
  registry_kept σ (get_qpixmap library icon width height colour kwargs σ).2.
Proof.
  pose proof (get_path_nothing_changed σ library icon kwargs) as [Hk _].
  unfold get_qpixmap. unfold bind at 1.
  destruct (get_path library icon kwargs σ) as [[icon_path|e] σ1];
    [|done]. cbn [snd] in Hk.
  unfold bind at 1.
  destruct (String.eqb (Pathlib.suffix icon_path) ".svg").
  - unfold bind. destruct colour as [l|]; [|done].
    unfold Color.read. by destruct (colours σ1 !! l).
  - destruct colour as [l|]; [|done].
    pose proof (fill_pixmap_by_alpha_store
                  (load_pixmap (Pathlib.str icon_path)) l σ1) as Hf.
    destruct (_fill_pixmap_by_alpha _ l σ1) as [[pixmap|e] σ2];
      by apply (registry_kept_trans _ σ1).
Qed.

(** C8: no call of [get_library_names], [get_path] or [get_qpixmap],
    whatever its arguments and whether it returns or raises, changes the
    registry: [LIBRARIES] has the entries it had, and every dictionary
    that was there (the defaults of the libraries among them) has the
    contents it had; what [get_path] merges into is a new dictionary. *)
Theorem registry_never_mutated (σ : Store) (library icon : string)
    (width height : Z) (colour : option loc)
    (kwargs : gmap string string) :
  registry_kept σ (get_library_names σ).2
  ∧ registry_kept σ (get_path library icon kwargs σ).2
  ∧ registry_kept σ
      (get_qpixmap library icon width height colour kwargs σ).2.
Proof.
  split; [done|]. split.
  - apply get_path_nothing_changed.
  - apply get_qpixmap_registry_kept.
Qed.

(** What a caller reads in the registry is then the same, when no entry
    of the registry dangles. *)
Lemma registry_kept_registry (σ σ' : Store) :
  well_formed σ → registry_kept σ σ' → registry σ' = registry σ.
Proof.
  intros Hwf [HL Hd]. unfold registry. rewrite HL.
  apply map_eq. intros name. rewrite !lookup_fmap.
  destruct (LIBRARIES σ !! name) as [cfg|] eqn:Hcfg; [|done].
  simpl. do 2 f_equal. unfold defaults_of.
  destruct (cfg_defaults cfg) as [l|] eqn:Hl; [|done].
  destruct (Hwf name cfg l Hcfg Hl) as [d Hdl].
  rewrite Hdl. by apply (lookup_weaken (dicts σ)).
Qed.

(** C3: a library name that is not a key of the registry makes [get_path],
    and so [get_qpixmap], raise [ValueError] and nothing else, whatever the
    icon name and the overrides; the message shows the list of the names
    of the registry, and so each valid name; the store is as it was. *)
Theorem get_path_library_not_found (σ : Store) (library icon : string)
    (width height : Z) (colour : option loc)
    (kwargs : gmap string string) :
  LIBRARIES σ !! library = None →
  ∃ msg,
    get_path library icon kwargs σ = (Raise (ValueError msg), σ)
    ∧ get_qpixmap library icon width height colour kwargs σ
      = (Raise (ValueError msg), σ)
    ∧ Str.substring_of
        (Str.repr_list (Str.sorted (elements (dom (LIBRARIES σ))))) msg
    ∧ ∀ name, is_Some (LIBRARIES σ !! name) → Str.substring_of name msg.
Proof.
  intros HL. eexists. split; [by apply get_path_unregistered|].
  split; [by apply get_qpixmap_raise, get_path_unregistered|].
  assert (Str.substring_of
            (Str.repr_list (Str.sorted (elements (dom (LIBRARIES σ)))))
            ("Icon library " +:+ library
               +:+ " not found. Available libraries: "
               +:+ Str.repr_list
                     (Str.sorted (elements (dom (LIBRARIES σ)))))) as Hsub.
  { exists ("Icon library " +:+ library
              +:+ " not found. Available libraries: "), "".
    by rewrite sapp_nil_r, !sapp_assoc. }
  split; [done|]. intros name Hname.
  eapply substring_of_trans; [|exact Hsub].
  by apply elem_of_repr_list_substring, elem_of_library_names.
Qed.

(** ** The resolution of a path *)

Lemma prefix_nil (s : string) : String.prefix "" s = true.
Proof. by destruct s. Qed.

Lemma is_absolute_cons (c : ascii) (s : string) :
  Pathlib.is_absolute (String c s) = if ascii_dec "/" c then true else false.
Proof.
  unfold Pathlib.is_absolute, Str.startswith. cbn [String.prefix].
  by rewrite prefix_nil.
Qed.

Lemma is_absolute_app (icon rest : string) :
  Pathlib.is_absolute (icon +:+ "/" +:+ rest)
    = Pathlib.is_absolute (icon +:+ "/").
Proof.
  destruct icon as [|c icon].
  - rewrite !sapp_nil_l. change ("/" +:+ rest) with (String "/" rest).
    by rewrite !is_absolute_cons.
  - rewrite !sapp_cons. by rewrite !is_absolute_cons.
Qed.

(** The libraries of the module, their template and their defaults. *)
Lemma registry_intact_entry (σ : Store) (library e0 : string) :
  registry_intact σ → default_ext σ library = Some e0 →
  ∃ cfg d,
    LIBRARIES σ !! library = Some cfg
    ∧ cfg_path cfg = Some "{icon}/{style}.{ext}"
    ∧ defaults_of σ cfg = Some d
    ∧ d !! "style" = Some "regular" ∧ d !! "ext" = Some e0
    ∧ Str.contains "/" e0 = false.
Proof.
  intros [HL Hd] He. unfold default_ext in He.
  apply bind_Some in He as (cfg & Hcfg & He).
  apply bind_Some in He as (d & Hdef & He).
  exists cfg, d. split; [done|]. rewrite HL in Hcfg.
  assert (H0 : dicts σ !! 0%nat
               = Some {[ "style" := "regular"; "ext" := "svg" ]}).
  { by apply (lookup_weaken (dicts initial_store)). }
  assert (H1 : dicts σ !! 1%nat
               = Some {[ "style" := "regular"; "ext" := "png" ]}).
  { by apply (lookup_weaken (dicts initial_store)). }
  cbn [LIBRARIES initial_store] in Hcfg.
  destruct (decide (library = "material")) as [->|Hm];
    [|destruct (decide (library = "internal")) as [->|Hi]].
  - rewrite lookup_insert_eq in Hcfg. injection Hcfg as <-.
    unfold defaults_of in *. cbn [cfg_defaults cfg_path] in *.
    assert (Some d = Some {[ "style" := "regular"; "ext" := "svg" ]})
      as Heq by (rewrite <- Hdef; exact H0).
    injection Heq as ->.
    vm_compute in He. injection He as <-. by repeat split.
  - rewrite lookup_insert_ne, lookup_singleton_eq in Hcfg by done.
    injection Hcfg as <-.
    unfold defaults_of in *. cbn [cfg_defaults cfg_path] in *.
    assert (Some d = Some {[ "style" := "regular"; "ext" := "png" ]})
      as Heq by (rewrite <- Hdef; exact H1).
    injection Heq as ->.
    vm_compute in He. injection He as <-. by repeat split.
  - by rewrite lookup_insert_ne, lookup_singleton_ne in Hcfg.
Qed.

(** A registry entry that refers to no dictionary: outside the model. *)
Lemma get_path_dangling (σ : Store) (library icon : string)
    (kwargs : gmap string string) (cfg : library_config) (t : string) :
  LIBRARIES σ !! library = Some cfg → cfg_path cfg = Some t →
  defaults_of σ cfg = None →
  (get_path library icon kwargs σ).1
    = Raise (NotModelled "no such dictionary").
Proof.
  intros HL Ht Hd. unfold defaults_of in Hd.
  unfold get_path, bind, LIBRARIES_get. rewrite HL.
  unfold config_path, config_defaults. rewrite Ht.
  destruct (cfg_defaults cfg) as [l|]; [|done].
  unfold ret, Dict.copy, bind, Dict.read. by rewrite Hd.
Qed.

Lemma get_path_resolve_spec (σ : Store) (library icon : string)
    (kwargs : gmap string string) (cfg : library_config) (t : string)
    (d : gmap string string) :
  LIBRARIES σ !! library = Some cfg → cfg_path cfg = Some t →
  defaults_of σ cfg = Some d →
  (get_path library icon kwargs σ).1
    = match resolve_spec library t d icon kwargs with
      | Ok p => look_up p
      | Raise e => Raise e
      end.
Proof.
  intros HL Ht Hd. rewrite (get_path_registered σ _ _ _ cfg t d) by done.
  unfold resolve_spec, library_root. rewrite merged_substitutions_union.
  by destruct (Format.format _ _).
Qed.

(** A call without a keyword named after a parameter is the body run on
    its keywords. *)
Lemma call_get_path_body (σ : Store) (library icon : string)
    (keywords : list (string * string)) :
  "library" ∉ keywords.*1 → "icon" ∉ keywords.*1 →
  call_get_path library icon keywords σ
    = get_path library icon (list_to_map keywords) σ.
Proof.
  intros Hl Hi. unfold call_get_path.
  destruct (List.find _ keywords) as [kv|] eqn:Hf; [|done].
  apply find_some in Hf as [Hin Hb]. apply list_elem_of_In in Hin.
  assert (Hkv : kv.1 ∈ keywords.*1) by (by apply list_elem_of_fmap_2).
  apply orb_true_iff in Hb as [Hb|Hb]; apply String.eqb_eq in Hb;
    rewrite Hb in Hkv; done.
Qed.

(** A call with such a keyword raises [TypeError], and nothing else
    happens. *)
Lemma call_get_path_clash (σ : Store) (library icon : string)
    (keywords : list (string * string)) :
  "library" ∈ keywords.*1 ∨ "icon" ∈ keywords.*1 →
  ∃ name,
    (name = "library" ∨ name = "icon") ∧ name ∈ keywords.*1
    ∧ call_get_path library icon keywords σ
      = (Raise (TypeError ("get_path() got multiple values for argument '"
                             +:+ name +:+ "'")), σ).
Proof.
  intros H. unfold call_get_path.
  destruct (List.find _ keywords) as [kv|] eqn:Hf.
  - apply find_some in Hf as [Hin Hb]. apply list_elem_of_In in Hin.
    exists kv.1. split; [|split; [by apply list_elem_of_fmap_2|done]].
    apply orb_true_iff in Hb as [Hb|Hb]; apply String.eqb_eq in Hb; auto.
  - exfalso.
    destruct H as [H|H]; apply list_elem_of_fmap in H as (kv & Heq & Hin);
      apply list_elem_of_In in Hin;
      pose proof (find_none _ _ Hf kv Hin) as Hb; cbn beta in Hb;
      rewrite <- Heq in Hb; discriminate Hb.
Qed.

(** The components of the root of a library of the module. *)
Lemma library_root_parts (σ : Store) (library : string) :
  registry_intact σ → is_Some (LIBRARIES σ !! library) →
  anchor (ICONLIB_ROOT // library) = anchor ICONLIB_ROOT
  ∧ parts (ICONLIB_ROOT // library) = parts ICONLIB_ROOT ++ [library].
Proof.
  intros [HL _] [cfg Hcfg]. rewrite HL in Hcfg.
  cbn [LIBRARIES initial_store] in Hcfg.
  destruct (decide (library = "material")) as [->|Hm]; [done|].
  destruct (decide (library = "internal")) as [->|Hi]; [done|].
  by rewrite lookup_insert_ne, lookup_singleton_ne in Hcfg.
Qed.

(** C2, amended: a call of [get_path] for a registered library, with
    keywords of distinct names.  A keyword named [library] or [icon] never
    reaches the body: the call raises [TypeError], so that no override
    replaces the icon binding.  With any other keywords the overrides are
    the keywords, and [get_path] looks up the path the specification
    describes: the defaults of the library, then the icon name, then the
    overrides are merged, an entry added later replacing an earlier one of
    its key; the template is formatted with the result and the outcome
    joined to [ICONLIB_ROOT / library].  On the registry of the module
    that path is [ICONLIB_ROOT / library / icon/style.ext], each of [style]
    and [ext] its override or else its default, and for an icon name that
    is not absolute it has the components of [ICONLIB_ROOT], then the
    library, then those of [icon/style.ext]. *)
Theorem get_path_resolves (σ : Store) (library icon : string)
    (keywords : list (string * string)) (cfg : library_config) (t : string)
    (d : gmap string string) :
  LIBRARIES σ !! library = Some cfg → cfg_path cfg = Some t →
  defaults_of σ cfg = Some d →
  NoDup keywords.*1 →
  let kwargs : gmap string string := list_to_map keywords in
  let merged := merged_substitutions d icon kwargs in
  ("library" ∈ keywords.*1 ∨ "icon" ∈ keywords.*1 →
   ∃ msg, call_get_path library icon keywords σ
          = (Raise (TypeError msg), σ))
  ∧ ("library" ∉ keywords.*1 → "icon" ∉ keywords.*1 →
     (∀ key value, kwargs !! key = Some value ↔ (key, value) ∈ keywords)
     ∧ (∀ key,
          merged !! key =
            match kwargs !! key with
            | Some v => Some v
            | None => if decide (key = "icon") then Some icon else d !! key
            end)
     ∧ merged !! "icon" = Some icon
     ∧ (call_get_path library icon keywords σ).1
       = match resolve_spec library t d icon kwargs with
         | Ok p => look_up p
         | Raise e => Raise e
         end
     ∧ (registry_intact σ → ∀ e0, d !! "ext" = Some e0 →
        let relative :=
          icon +:+ "/" +:+ default "regular" (kwargs !! "style") +:+ "."
            +:+ default e0 (kwargs !! "ext") in
        let icon_path := ICONLIB_ROOT // library // relative in
        t = "{icon}/{style}.{ext}"
        ∧ Format.format t merged = Ok relative
        ∧ resolve_spec library t d icon kwargs = Ok icon_path
        ∧ (call_get_path library icon keywords σ).1 = look_up icon_path
        ∧ (Pathlib.is_absolute (icon +:+ "/") = false →
           anchor icon_path = anchor ICONLIB_ROOT
           ∧ parts icon_path
             = parts ICONLIB_ROOT ++ [library]
                 ++ Pathlib.parts_of relative))).
Proof.
  intros HL Ht Hd Hnd kwargs merged. split.
  { intros Hclash.
    destruct (call_get_path_clash σ library icon keywords Hclash)
      as (name & _ & _ & Hrun). eauto. }
  intros Hlib Hicon.
  assert (Hkw : kwargs !! "icon" = None).
  { by apply not_elem_of_list_to_map_1. }
  assert (Hm : ∀ key,
            merged !! key =
              match kwargs !! key with
              | Some v => Some v
              | None => if decide (key = "icon") then Some icon else d !! key
              end) by apply merged_substitutions_lookup.
  assert (Hrun : (call_get_path library icon keywords σ).1
                 = match resolve_spec library t d icon kwargs with
                   | Ok p => look_up p
                   | Raise e => Raise e
                   end).
  { rewrite call_get_path_body by done.
    by apply (get_path_resolve_spec σ _ _ _ cfg). }
  split; [|split; [exact Hm|split; [|split; [exact Hrun|]]]].
  - intros key value. symmetry. by apply elem_of_list_to_map.
  - by rewrite Hm, Hkw.
  - intros Hreg e0 He0 relative icon_path.
    assert (Hdef : default_ext σ library = Some e0).
    { unfold default_ext. rewrite HL. simpl. rewrite Hd. exact He0. }
    destruct (registry_intact_entry σ library e0 Hreg Hdef)
      as (cfg' & d' & HL' & Ht' & Hd' & Hstyle & _ & _).
    assert (cfg' = cfg) as -> by congruence.
    assert (d' = d) as -> by congruence.
    assert (t = "{icon}/{style}.{ext}") as Htt by congruence.
    assert (Hf : Format.format t merged = Ok relative).
    { rewrite Htt. apply format_icon_style_ext.
      - by rewrite Hm, Hkw.
      - rewrite Hm. destruct (kwargs !! "style"); [done|].
        by rewrite decide_False.
      - rewrite Hm. destruct (kwargs !! "ext"); [done|].
        by rewrite decide_False. }
    assert (Hres : resolve_spec library t d icon kwargs = Ok icon_path).
    { unfold resolve_spec. fold merged. by rewrite Hf. }
    split; [done|]. split; [done|]. split; [done|].
    split; [by rewrite Hrun, Hres|].
    intros Hrel.
    destruct (library_root_parts σ library Hreg) as [Ha Hp];
      [by rewrite HL|].
    unfold icon_path, relative. unfold Pathlib.joinpath at 1 3.
    rewrite is_absolute_app, Hrel. cbn [anchor parts].
    rewrite Ha, Hp. by rewrite <- (assoc_L (++)).
Qed.

(** C4, amended: for a registered library and arguments with which the
    template formats, [get_path] raises [FileNotFoundError] exactly when
    [exists()] answers that there is no file at the formatted path, and
    returns that path exactly when the file is on disk; when [exists()]
    itself fails, with an error of the system that does not say that there
    is no such file, that [OSError] is what the call raises.  In every
    case nothing the caller had is changed, and an exception comes with no
    path. *)
Theorem get_path_file_not_found (σ : Store) (library icon : string)
    (kwargs : gmap string string) (cfg : library_config) (t : string)
    (d : gmap string string) (relative : string) :
  LIBRARIES σ !! library = Some cfg → cfg_path cfg = Some t →
  defaults_of σ cfg = Some d →
  Format.format t (merged_substitutions d icon kwargs) = Ok relative →
  let icon_path := ICONLIB_ROOT // library // relative in
  ((∃ msg, (get_path library icon kwargs σ).1
           = Raise (FileNotFoundError msg))
   ↔ Path_exists icon_path = Ok false)
  ∧ (Path_exists icon_path = Ok false →
     (get_path library icon kwargs σ).1
       = Raise (FileNotFoundError
                  ("No icon file found at: " +:+ Pathlib.str icon_path)))
  ∧ ((∃ p, (get_path library icon kwargs σ).1 = Ok p)
     ↔ exists_ icon_path = true)
  ∧ (exists_ icon_path = true →
     (get_path library icon kwargs σ).1 = Ok icon_path)
  ∧ (∀ errno, Path_exists icon_path = Raise (OSError errno) →
       (get_path library icon kwargs σ).1 = Raise (OSError errno))
  ∧ nothing_changed σ (get_path library icon kwargs σ).2.
Proof.
  intros HL Ht Hd Hf icon_path.
  rewrite (get_path_resolve_spec σ _ _ _ cfg t d) by done.
  unfold resolve_spec, library_root. rewrite Hf. fold icon_path.
  unfold look_up, Path_exists, exists_.
  destruct (fs_stat (Pathlib.str icon_path)) as [|errno|];
    [| destruct (Os.ignore_error errno) |];
    (split; [split|split; [|split; [split|split; [|split]]]]);
    try apply get_path_nothing_changed; try done;
    try (by intros [? ?]); try (by intros ? [= <-]); eauto.
Qed.

(** C10: an override whose key the template of the library does not refer
    to changes nothing of what [get_path] returns or raises: two calls that
    differ in such overrides only have the same outcome. *)
Theorem get_path_ignores_unreferenced (σ : Store) (library icon : string)
    (kwargs extra : gmap string string) (cfg : library_config)
    (t : string) :
  LIBRARIES σ !! library = Some cfg → cfg_path cfg = Some t →
  (∀ key, is_Some (extra !! key) → key ∉ Format.placeholders t) →
  (get_path library icon (extra ∪ kwargs) σ).1
    = (get_path library icon kwargs σ).1.
Proof.
  intros HL Ht Hextra.
  destruct (defaults_of σ cfg) as [d|] eqn:Hd.
  - rewrite !(get_path_registered σ _ _ _ cfg t d) by done.
    rewrite (format_agree t _ (kwargs ∪ ({[ "icon" := icon ]} ∪ d)));
      [done|].
    intros key Hkey. rewrite <- (assoc_L (∪)).
    apply lookup_union_r. apply eq_None_not_Some. intros Hsome.
    by apply (Hextra key).
  - by rewrite !(get_path_dangling σ _ _ _ cfg t).
Qed.

(** ** The extension of a resolved path *)

Lemma length_sapp (s t : string) :
  String.length (s +:+ t) = (String.length s + String.length t)%nat.
Proof.
  induction s as [|a s IH]; [done|]. rewrite sapp_cons. simpl. by rewrite IH.
Qed.

Lemma keep_part_long (s : string) :
  (2 ≤ String.length s)%nat → Pathlib.keep_part s = true.
Proof. destruct s as [|a [|b s]]; simpl; [lia..|]. by destruct a as [[] [] [] [] [] [] [] []]. Qed.

(** A path made from text that ends in ["." + e] ends in [e], when [e]
    has no separator. *)
Lemma joinpath_endswith (p : Path) (a e : string) :
  Str.contains "/" e = false →
  Str.endswith (Pathlib.str (p // (a +:+ "." +:+ e))) e = true.
Proof.
  intros He. destruct e as [|c e]; [apply endswith_nil|].
  set (x := String c e) in *.
  assert (Hb : Str.contains "/" ("." +:+ x) = false) by done.
  destruct (parts_of_app_no_sep a ("." +:+ x) Hb) as [l Hl].
  { apply keep_part_long. rewrite !length_sapp. simpl. lia. }
  destruct (joinpath_parts_snoc p _ _ _ Hl) as [l' Hl'].
  eapply endswith_trans; [by eapply str_endswith_last|].
  apply endswith_iff. exists (List.last (Str.split "/" a) "" +:+ ".").
  by rewrite sapp_assoc.
Qed.

(** C6, amended: for a library of the module and an icon whose file is
    there, the path [get_path] returns ends in the default extension of the
    library when no ["ext"] override is given, and in the override when one
    is given that has no ['/'] in it. *)
Theorem get_path_extension (σ : Store) (library icon : string)
    (kwargs : gmap string string) (e0 : string) (icon_path : Path) :
  registry_intact σ → default_ext σ library = Some e0 →
  (get_path library icon kwargs σ).1 = Ok icon_path →
  match kwargs !! "ext" with
  | None => Str.endswith (Pathlib.str icon_path) e0 = true
  | Some ext =>
      Str.contains "/" ext = false →
      Str.endswith (Pathlib.str icon_path) ext = true
  end.
Proof.
  intros Hreg He0 Hpath.
  destruct (registry_intact_entry σ library e0 Hreg He0)
    as (cfg & d & HL & Ht & Hd & Hstyle & Hext & Hplain).
  rewrite (get_path_registered σ _ _ _ cfg _ d HL Ht Hd) in Hpath.
  rewrite <- merged_substitutions_union in Hpath.
  pose proof (merged_substitutions_lookup d icon kwargs) as Hm.
  assert (∃ i, merged_substitutions d icon kwargs !! "icon" = Some i)
    as [i Hi].
  { rewrite Hm. destruct (kwargs !! "icon"); eauto. }
  assert (∃ s, merged_substitutions d icon kwargs !! "style" = Some s)
    as [s Hs].
  { rewrite Hm. destruct (kwargs !! "style"); [eauto|].
    rewrite decide_False by done. eauto. }
  assert (∀ e, merged_substitutions d icon kwargs !! "ext" = Some e →
               Str.contains "/" e = false →
               Str.endswith (Pathlib.str icon_path) e = true) as Hend.
  { intros e He Hplain'.
    rewrite (format_icon_style_ext _ i s e Hi Hs He) in Hpath.
    cbn zeta in Hpath.
    replace (i +:+ "/" +:+ s +:+ "." +:+ e)
      with ((i +:+ "/" +:+ s) +:+ "." +:+ e) in Hpath
      by (by rewrite !sapp_assoc).
    apply look_up_Ok in Hpath as [-> _].
    by apply joinpath_endswith. }
  specialize (Hm "ext").
  destruct (kwargs !! "ext") as [ext|].
  - intros Hplain'. by apply Hend.
  - rewrite decide_False in Hm by done. apply Hend; [|done]. congruence.
Qed.

(** ** The bitmaps *)

(** C1, amended: the recolouring of a raster image returns an image of
    the same size in which every pixel that was fully transparent (alpha
    0) is the pixel it was, colour and alpha, and every pixel of alpha
    greater than 0 keeps exactly the alpha it had and holds the fill colour
    as the image stores it at that alpha: exactly the red, green and blue
    of the fill colour where the alpha is 255, and the red, green and blue
    of the fill colour rounded by the premultiplied storage where the
    alpha is below 255. *)
Theorem fill_pixmap_by_alpha_recolours (pixmap : QPixmap)
    (fill_color : loc) (c : QColor) (σ : Store) :
  colours σ !! fill_color = Some c →
  ∃ out σ',
    _fill_pixmap_by_alpha pixmap fill_color σ = (Ok out, σ')
    ∧ img_width out = img_width pixmap
    ∧ img_height out = img_height pixmap
    ∧ ∀ x y,
        (x < img_width pixmap)%nat → (y < img_height pixmap)%nat →
        let pixel := Image.pixelColor pixmap x y in
        (alpha pixel = 0 → Image.pixelColor out x y = pixel)
        ∧ (0 < alpha pixel →
           alpha (Image.pixelColor out x y) = alpha pixel
           ∧ Image.pixelColor out x y
             = Image.stored premultiplied
                 (mkColor (red c) (green c) (blue c) (alpha pixel)))
        ∧ (alpha pixel = 255 →
           Image.pixelColor out x y
             = mkColor (red c) (green c) (blue c) 255)
        ∧ (0 < alpha pixel → alpha pixel ≠ 255 →
           Image.pixelColor out x y
             = mkColor (premultiplied (alpha pixel) (red c))
                       (premultiplied (alpha pixel) (green c))
                       (premultiplied (alpha pixel) (blue c))
                       (alpha pixel)).
Proof.
  intros Hc.
  destruct (fill_pixmap_by_alpha_run pixmap fill_color c σ Hc)
    as (σ' & Hrun & _).
  assert (Hrange : ∀ x y, (x, y) ∈ Image.positions pixmap →
                          Image.in_range pixmap x y = true).
  { intros x y [Hx Hy]%elem_of_positions. unfold Image.in_range.
    apply andb_true_intro. split; by apply Nat.ltb_lt. }
  pose proof (scan_spec pixmap c (Image.positions pixmap)
                (NoDup_positions pixmap) Hrange) as Hspec.
  revert Hrun Hspec.
  destruct (scan (Image.positions pixmap) (pixmap, c)) as [out c'].
  cbn [fst snd]. intros Hrun (Hw & Hh & Hpix & _).
  exists out, σ'. split; [exact Hrun|]. split; [done|]. split; [done|].
  intros x y Hx Hy.
  assert (Hin : Image.in_range pixmap x y = true)
    by by apply Hrange, elem_of_positions.
  assert (Hin' : Image.in_range out x y = true).
  { unfold Image.in_range in *. by rewrite Hw, Hh. }
  unfold Image.pixelColor. rewrite Hin, Hin', Hpix.
  rewrite bool_decide_eq_true_2 by by apply elem_of_positions.
  unfold recoloured, Color.with_alpha. cbn zeta.
  split; [by intros ->|]. split; [|split].
  - intros Ha. apply Z.ltb_lt in Ha as ->. by rewrite alpha_stored.
  - intros ->. cbn [Z.ltb Z.compare]. by apply stored_opaque.
  - intros Ha Hne. apply Z.ltb_lt in Ha as ->. unfold Image.stored.
    cbn [alpha red green blue].
    by destruct (Z.eqb_spec (alpha (pixel_at pixmap x y)) 255).
Qed.

Lemma colour_after_positions (image : QImage) (c : QColor) (pixel : QColor) :
  last (visible image) = Some pixel →
  colour_after image c (Image.positions image)
    = Color.with_alpha c (alpha pixel).
Proof. unfold colour_after, visible, Image.row_major. by intros ->. Qed.

(** C9: with a fill colour and a raster image that has a pixel of alpha
    greater than 0, [_fill_pixmap_by_alpha], and so [get_qpixmap], changes
    the colour object of the caller: after the call its alpha is the alpha
    of the last such pixel of the scan, rows outside and columns inside;
    its red, green and blue are what they were. *)
Theorem fill_pixmap_by_alpha_mutates_colour (pixmap : QPixmap)
    (fill_color : loc) (c last_pixel : QColor) (σ : Store) :
  colours σ !! fill_color = Some c →
  last (visible pixmap) = Some last_pixel →
  colours (_fill_pixmap_by_alpha pixmap fill_color σ).2 !! fill_color
    = Some (Color.with_alpha c (alpha last_pixel))
  ∧ ∀ library icon width height kwargs icon_path σ1,
      get_path library icon kwargs σ = (Ok icon_path, σ1) →
      Pathlib.suffix icon_path ≠ ".svg" →
      load_pixmap (Pathlib.str icon_path) = pixmap →
      colours
        (get_qpixmap library icon width height (Some fill_color) kwargs σ).2
        !! fill_color
      = Some (Color.with_alpha c (alpha last_pixel)).
Proof.
  intros Hc Hlast.
  assert (Hfill : ∀ σ0, colours σ0 !! fill_color = Some c →
            colours (_fill_pixmap_by_alpha pixmap fill_color σ0).2
              !! fill_color
            = Some (Color.with_alpha c (alpha last_pixel))).
  { intros σ0 Hc0.
    destruct (fill_pixmap_by_alpha_run pixmap fill_color c σ0 Hc0)
      as (σ' & -> & _ & _ & Hcol).
    destruct (scan_spec pixmap c (Image.positions pixmap))
      as (_ & _ & _ & Hfin).
    { apply NoDup_positions. }
    { intros x y [Hx Hy]%elem_of_positions. unfold Image.in_range.
      apply andb_true_intro. split; by apply Nat.ltb_lt. }
    cbn [snd]. rewrite Hcol, lookup_insert_eq. f_equal.
    etrans; [exact Hfin|]. by apply colour_after_positions. }
  split; [by apply Hfill|].
  intros library icon width height kwargs icon_path σ1 Hpath Hsuf Hload.
  pose proof (get_path_nothing_changed σ library icon kwargs) as [_ Hcs].
  unfold get_qpixmap. unfold bind at 1. rewrite Hpath in *.
  cbn [snd] in Hcs. unfold bind at 1.
  apply String.eqb_neq in Hsuf. rewrite Hsuf, Hload.
  specialize (Hfill σ1). rewrite Hcs in Hfill. specialize (Hfill Hc).
  by destruct (_fill_pixmap_by_alpha pixmap fill_color σ1) as [[out|e] σ2].
Qed.

(** A pixmap that has the size asked for is returned as it is. *)
Lemma scaled_same_size (resample : QPixmap → nat → nat → nat → nat → QColor)
    (pixmap : QPixmap) :
  (0 < img_width pixmap)%nat → (0 < img_height pixmap)%nat →
  Pixmap.scaled resample pixmap (Z.of_nat (img_width pixmap))
    (Z.of_nat (img_height pixmap)) = pixmap.
Proof.
  intros Hw Hh. unfold Pixmap.scaled, Pixmap.isNull, Pixmap.keep_aspect_ratio.
  destruct (Nat.eqb_spec (img_width pixmap) 0) as [|_]; [lia|].
  destruct (Nat.eqb_spec (img_height pixmap) 0) as [|_]; [lia|].
  cbn [orb].
  destruct (Z.ltb_spec (Z.of_nat (img_width pixmap)) 1); [lia|].
  destruct (Z.ltb_spec (Z.of_nat (img_height pixmap)) 1); [lia|].
  cbn [orb].
  rewrite (Z.mul_comm (Z.of_nat (img_height pixmap))), Z.div_mul by lia.
  rewrite Z.leb_refl. rewrite !Z.max_l by lia. rewrite !Nat2Z.id.
  by rewrite !Nat.eqb_refl.
Qed.

(** The rounded division by 255 undoes a multiplication by 255. *)
Lemma div_255_full (d : Z) : 0 ≤ d ≤ 255 → Pixmap.div_255 (255 * d) = d.
Proof.
  intros Hd. unfold Pixmap.div_255. rewrite !Z.shiftr_div_pow2 by lia.
  change (2 ^ 8) with 256.
  destruct (Z.eqb_spec d 0) as [->|Hne]; [done|].
  assert (255 * d / 256 = d - 1) as ->.
  { symmetry. apply (Z.div_unique _ _ _ (256 - d)); lia. }
  symmetry. apply (Z.div_unique _ _ _ 127); lia.
Qed.




(** * More of the module *)

(** ** The outcomes of [get_path] *)

Lemma get_path_no_template (σ : Store) (library icon : string)
    (kwargs : gmap string string) (cfg : library_config) :
  LIBRARIES σ !! library = Some cfg → cfg_path cfg = None →
  get_path library icon kwargs σ = (Raise (KeyError "path"), σ).
Proof.
  intros HL Ht. unfold get_path, bind, LIBRARIES_get. rewrite HL.
  unfold config_path. by rewrite Ht.
Qed.

(** The libraries of the module are the two it defines. *)
Lemma registry_intact_default_ext (σ : Store) (library : string) :
  registry_intact σ → is_Some (LIBRARIES σ !! library) →
  is_Some (default_ext σ library).
Proof.
  intros [HL Hd] [cfg Hcfg]. unfold default_ext. rewrite Hcfg. simpl.
  rewrite HL in Hcfg. cbn [LIBRARIES initial_store] in Hcfg.
  assert (H0 : dicts σ !! 0%nat
               = Some {[ "style" := "regular"; "ext" := "svg" ]}).
  { by apply (lookup_weaken (dicts initial_store)). }
  assert (H1 : dicts σ !! 1%nat
               = Some {[ "style" := "regular"; "ext" := "png" ]}).
  { by apply (lookup_weaken (dicts initial_store)). }
  destruct (decide (library = "material")) as [->|Hm];
    [|destruct (decide (library = "internal")) as [->|Hi]].
  - rewrite lookup_insert_eq in Hcfg. injection Hcfg as <-.
    unfold defaults_of. cbn [cfg_defaults].
    replace (dicts σ !! 0%nat)
      with (Some ({[ "style" := "regular"; "ext" := "svg" ]}
                    : gmap string string)) by (symmetry; exact H0).
    by eexists.
  - rewrite lookup_insert_ne, lookup_singleton_eq in Hcfg by done.
    injection Hcfg as <-.
    unfold defaults_of. cbn [cfg_defaults].
    replace (dicts σ !! 1%nat)
      with (Some ({[ "style" := "regular"; "ext" := "png" ]}
                    : gmap string string)) by (symmetry; exact H1).
    by eexists.
  - by rewrite lookup_insert_ne, lookup_singleton_ne in Hcfg.
Qed.

(** On the registry of the module the relative path is
    [icon/style.ext], each part an override or else its default. *)
Lemma get_path_closed_form (σ : Store) (library icon : string)
    (kwargs : gmap string string) (e0 : string) :
  registry_intact σ → default_ext σ library = Some e0 →
  (get_path library icon kwargs σ).1
    = let relative :=
        default icon (kwargs !! "icon") +:+ "/"
          +:+ default "regular" (kwargs !! "style") +:+ "."
          +:+ default e0 (kwargs !! "ext") in
      look_up (ICONLIB_ROOT // library // relative).
Proof.
  intros Hreg He0.
  destruct (registry_intact_entry σ library e0 Hreg He0)
    as (cfg & d & HL & Ht & Hd & Hstyle & Hext & _).
  rewrite (get_path_registered σ _ _ _ cfg _ d HL Ht Hd).
  rewrite <- merged_substitutions_union.
  pose proof (merged_substitutions_lookup d icon kwargs) as Hm.
  rewrite (format_icon_style_ext _
             (default icon (kwargs !! "icon"))
             (default "regular" (kwargs !! "style"))
             (default e0 (kwargs !! "ext"))); [done|..].
  - rewrite Hm. by destruct (kwargs !! "icon").
  - rewrite Hm. destruct (kwargs !! "style"); [done|].
    by rewrite decide_False.
  - rewrite Hm. destruct (kwargs !! "ext"); [done|].
    by rewrite decide_False.
Qed.

(** X1: on the registry of the module [get_path] has four outcomes and no
    other: a path, [ValueError], [FileNotFoundError], and the [OSError]
    with which [exists()] fails; it raises [ValueError] exactly for the
    names that [get_library_names] does not list, and [OSError] only with
    the error number [os.stat] gave for the path it looked up. *)
Theorem get_path_outcomes (σ : Store) (library icon : string)
    (kwargs : gmap string string) :
  registry_intact σ →
  ((∃ p, (get_path library icon kwargs σ).1 = Ok p)
   ∨ (∃ msg, (get_path library icon kwargs σ).1 = Raise (ValueError msg))
   ∨ (∃ msg, (get_path library icon kwargs σ).1
             = Raise (FileNotFoundError msg))
   ∨ (∃ errno p,
        (get_path library icon kwargs σ).1 = Raise (OSError errno)
        ∧ fs_stat (Pathlib.str p) = Os.StatOSError errno
        ∧ Os.ignore_error errno = false))
  ∧ ((∃ msg, (get_path library icon kwargs σ).1 = Raise (ValueError msg))
     ↔ ∀ names, (get_library_names σ).1 = Ok names → library ∉ names).
Proof.
  intros Hreg.
  assert (Hnames : (∀ names, (get_library_names σ).1 = Ok names →
                             library ∉ names)
                   ↔ LIBRARIES σ !! library = None).
  { rewrite eq_None_not_Some, <- elem_of_library_names. split.
    - intros H. by apply H.
    - intros H names [= <-]. done. }
  rewrite Hnames.
  destruct (LIBRARIES σ !! library) as [cfg|] eqn:HL.
  - destruct (registry_intact_default_ext σ library Hreg) as [e0 He0];
      [by rewrite HL|].
    rewrite (get_path_closed_form σ _ _ _ e0 Hreg He0). cbn zeta.
    match goal with |- context [look_up ?p] => set (q := p) end.
    unfold look_up, Path_exists.
    destruct (fs_stat (Pathlib.str q)) as [|errno|] eqn:Hstat;
      [|destruct (Os.ignore_error errno) eqn:Hign|].
    + split; [eauto|]. split; [by intros [msg ?]|done].
    + split; [eauto|]. split; [by intros [msg ?]|done].
    + split; [|split; [by intros [msg ?]|done]].
      do 3 right. by exists errno, q.
    + split; [eauto|]. split; [by intros [msg ?]|done].
  - rewrite (get_path_unregistered σ _ _ _ HL). split; [eauto|].
    split; [done|eauto].
Qed.

(** X2: a path that [get_path] returns is a path that is on disk, in every
    store. *)
Theorem get_path_returns_existing (σ : Store) (library icon : string)
    (kwargs : gmap string string) (icon_path : Path) :
  (get_path library icon kwargs σ).1 = Ok icon_path →
  exists_ icon_path = true.
Proof.
  intros Hp.
  destruct (LIBRARIES σ !! library) as [cfg|] eqn:HL;
    [|by rewrite (get_path_unregistered σ _ _ _ HL) in Hp].
  destruct (cfg_path cfg) as [t|] eqn:Ht;
    [|by rewrite (get_path_no_template σ _ _ _ cfg HL Ht) in Hp].
  destruct (defaults_of σ cfg) as [d|] eqn:Hd;
    [|by rewrite (get_path_dangling σ _ _ _ cfg t HL Ht Hd) in Hp].
  rewrite (get_path_registered σ _ _ _ cfg t d HL Ht Hd) in Hp.
  destruct (Format.format _ _) as [relative|e]; [|done].
  by apply look_up_Ok in Hp as [-> ?].
Qed.

(** X4: on the registry of the module, the path [get_path] looks up is
    [ICONLIB_ROOT / library / icon/style.ext], where [style] is the
    override of that key or else ["regular"], and [ext] the override of
    that key or else the default extension of the library.  The call
    returns that path when [exists()] finds the file, raises
    [FileNotFoundError] with the path in its message when [exists()] finds
    none, and raises the [OSError] of [exists()] when that fails. *)
Theorem get_path_overrides (σ : Store) (library icon : string)
    (kwargs : gmap string string) (e0 : string) :
  registry_intact σ → default_ext σ library = Some e0 →
  kwargs !! "icon" = None →
  let relative :=
    icon +:+ "/" +:+ default "regular" (kwargs !! "style") +:+ "."
      +:+ default e0 (kwargs !! "ext") in
  let p := ICONLIB_ROOT // library // relative in
  (get_path library icon kwargs σ).1 =
    match Path_exists p with
    | Ok true => Ok p
    | Ok false =>
        Raise (FileNotFoundError
                 ("No icon file found at: " +:+ Pathlib.str p))
    | Raise e => Raise e
    end.
Proof.
  intros Hreg He0 Hicon.
  rewrite (get_path_closed_form σ _ _ _ e0 Hreg He0). by rewrite Hicon.
Qed.

(** ** One call after another *)

Lemma registry_kept_defaults_of (σ σ' : Store) (library : string)
    (cfg : library_config) :
  well_formed σ → registry_kept σ σ' →
  LIBRARIES σ !! library = Some cfg →
  defaults_of σ' cfg = defaults_of σ cfg.
Proof.
  intros Hwf [HL Hd] Hcfg. unfold defaults_of.
  destruct (cfg_defaults cfg) as [l|] eqn:Hl; [|done].
  destruct (Hwf library cfg l Hcfg Hl) as [d Hdl].
  rewrite Hdl. by apply (lookup_weaken (dicts σ)).
Qed.

(** What [get_path] returns or raises is read off the registry. *)
Lemma get_path_registry_kept (σ σ' : Store) (library icon : string)
    (kwargs : gmap string string) :
  well_formed σ → registry_kept σ σ' →
  (get_path library icon kwargs σ').1 = (get_path library icon kwargs σ).1.
Proof.
  intros Hwf Hk. pose proof Hk as [HL Hd].
  destruct (LIBRARIES σ !! library) as [cfg|] eqn:Hcfg.
  - assert (Hcfg' : LIBRARIES σ' !! library = Some cfg) by by rewrite HL.
    pose proof (registry_kept_defaults_of σ σ' library cfg Hwf Hk Hcfg)
      as Hdef.
    destruct (cfg_path cfg) as [t|] eqn:Ht.
    + destruct (defaults_of σ cfg) as [d|] eqn:Hdf.
      * rewrite (get_path_registered σ _ _ _ cfg t d) by done.
        by rewrite (get_path_registered σ' _ _ _ cfg t d).
      * rewrite (get_path_dangling σ _ _ _ cfg t) by done.
        by rewrite (get_path_dangling σ' _ _ _ cfg t).
    + rewrite (get_path_no_template σ _ _ _ cfg) by done.
      by rewrite (get_path_no_template σ' _ _ _ cfg).
  - assert (Hcfg' : LIBRARIES σ' !! library = None) by by rewrite HL.
    rewrite (get_path_unregistered σ _ _ _ Hcfg).
    rewrite (get_path_unregistered σ' _ _ _ Hcfg'). by rewrite HL.
Qed.

(** X3: no call is felt by a later one.  After a call of [get_path] or of
    [get_qpixmap], whatever its arguments and its outcome, [get_path] with
    any arguments returns or raises what it would have without it, and
    [get_library_names] lists the same names. *)
Theorem calls_do_not_interfere (σ : Store) (library0 icon0 : string)
    (width0 height0 : Z) (colour0 : option loc)
    (kwargs0 : gmap string string) (library icon : string)
    (kwargs : gmap string string) :
  well_formed σ →
  let σ1 := (get_path library0 icon0 kwargs0 σ).2 in
  let σ2 :=
    (get_qpixmap library0 icon0 width0 height0 colour0 kwargs0 σ).2 in
  (get_path library icon kwargs σ1).1 = (get_path library icon kwargs σ).1
  ∧ (get_path library icon kwargs σ2).1 = (get_path library icon kwargs σ).1
  ∧ (get_library_names σ1).1 = (get_library_names σ).1
  ∧ (get_library_names σ2).1 = (get_library_names σ).1.
Proof.
  intros Hwf σ1 σ2.
  pose proof (get_path_nothing_changed σ library0 icon0 kwargs0) as [H1 _].
  pose proof (get_qpixmap_registry_kept σ library0 icon0 width0 height0
                colour0 kwargs0) as H2.
  fold σ1 in H1. fold σ2 in H2.
  split; [by apply get_path_registry_kept|].
  split; [by apply get_path_registry_kept|].
  destruct H1 as [HL1 _], H2 as [HL2 _].
  unfold get_library_names. cbn [fst]. by rewrite HL1, HL2.
Qed.

(** ** Where the path points *)

(** X5: an icon name that is empty or begins with ['/'] takes the path out
    of the library: on the registry of the module the path [get_path] looks
    up is then the absolute path [icon/style.ext] itself, and
    [ICONLIB_ROOT] and the library have no part in it.  That path is
    returned when [exists()] finds the file; [FileNotFoundError] is raised
    when it finds none, and the [OSError] of [exists()] when that fails. *)
Theorem get_path_absolute_icon (σ : Store) (library icon : string)
    (kwargs : gmap string string) (e0 : string) :
  registry_intact σ → default_ext σ library = Some e0 →
  kwargs !! "icon" = None →
  Pathlib.is_absolute (icon +:+ "/") = true →
  let p :=
    Pathlib.parse
      (icon +:+ "/" +:+ default "regular" (kwargs !! "style") +:+ "."
         +:+ default e0 (kwargs !! "ext")) in
  (get_path library icon kwargs σ).1 =
    match Path_exists p with
    | Ok true => Ok p
    | Ok false =>
        Raise (FileNotFoundError
                 ("No icon file found at: " +:+ Pathlib.str p))
    | Raise e => Raise e
    end.
Proof.
  intros Hreg He0 Hicon Habs.
  rewrite (get_path_closed_form σ _ _ _ e0 Hreg He0), Hicon. cbn zeta.
  cbn [default from_option]. unfold Pathlib.joinpath at 1.
  by rewrite is_absolute_app, Habs.
Qed.

Lemma registry_intact_library (σ : Store) (library : string) :
  registry_intact σ → is_Some (LIBRARIES σ !! library) →
  library = "material" ∨ library = "internal".
Proof.
  intros [HL _] [cfg Hcfg]. rewrite HL in Hcfg.
  cbn [LIBRARIES initial_store] in Hcfg.
  destruct (decide (library = "material")) as [->|Hm]; [by left|].
  destruct (decide (library = "internal")) as [->|Hi]; [by right|].
  by rewrite lookup_insert_ne, lookup_singleton_ne in Hcfg.
Qed.

(** X6: with any other icon name the path [get_path] returns has the
    components of [ICONLIB_ROOT], then the library, then the components of
    [icon/style.ext], and the anchor of [ICONLIB_ROOT]. *)
Theorem get_path_under_library_root (σ : Store) (library icon : string)
    (kwargs : gmap string string) (e0 : string) (icon_path : Path) :
  registry_intact σ → default_ext σ library = Some e0 →
  kwargs !! "icon" = None →
  Pathlib.is_absolute (icon +:+ "/") = false →
  (get_path library icon kwargs σ).1 = Ok icon_path →
  anchor icon_path = anchor ICONLIB_ROOT
  ∧ parts icon_path
    = parts ICONLIB_ROOT ++ [library]
        ++ Pathlib.parts_of
             (icon +:+ "/" +:+ default "regular" (kwargs !! "style")
                +:+ "." +:+ default e0 (kwargs !! "ext")).
Proof.
  intros Hreg He0 Hicon Hrel Hp.
  rewrite (get_path_closed_form σ _ _ _ e0 Hreg He0), Hicon in Hp.
  cbn zeta in Hp. cbn [default from_option] in Hp.
  apply look_up_Ok in Hp as [-> _].
  unfold Pathlib.joinpath at 1 3. rewrite is_absolute_app, Hrel.
  cbn [anchor parts].
  assert (Hlib : library = "material" ∨ library = "internal").
  { apply (registry_intact_library σ); [done|].
    unfold default_ext in He0. by destruct (LIBRARIES σ !! library). }
  destruct Hlib as [-> | ->].
  - split; [reflexivity|].
    change (parts (ICONLIB_ROOT // "material"))
      with (parts ICONLIB_ROOT ++ ["material"]).
    by rewrite <- (assoc_L (++)).
  - split; [reflexivity|].
    change (parts (ICONLIB_ROOT // "internal"))
      with (parts ICONLIB_ROOT ++ ["internal"]).
    by rewrite <- (assoc_L (++)).
Qed.

(** ** Templates and their placeholders *)

Lemma render_unbound (segs : list Format.segment) (m : gmap string string)
    (k : string) :
  Forall (λ name, Format.all_digits name = false)
    (Format.field_names segs) →
  k ∈ Format.field_names segs → m !! k = None →
  ∃ k', k' ∈ Format.field_names segs ∧ m !! k' = None
        ∧ Format.render segs m = Raise (KeyError k').
Proof.
  induction segs as [|[c|name] segs IH]; cbn [Format.field_names];
    intros Hdig Hk Hm.
  - by apply elem_of_nil in Hk.
  - destruct (IH Hdig Hk Hm) as (k' & Hk' & Hm' & Hr).
    exists k'. repeat split; [done..|]. cbn [Format.render]. by rewrite Hr.
  - apply Forall_cons in Hdig as [Hname Hdig].
    cbn [Format.render]. unfold Format.get_value. rewrite Hname.
    destruct (m !! name) as [v|] eqn:Hv.
    + apply elem_of_cons in Hk as [->|Hk]; [congruence|].
      destruct (IH Hdig Hk Hm) as (k' & Hk' & Hm' & Hr).
      exists k'. rewrite Hr. repeat split; [by right|done].
    + exists name. repeat split; [by left|done].
Qed.

Lemma render_bound (segs : list Format.segment) (m : gmap string string) :
  Forall (λ name, Format.all_digits name = false)
    (Format.field_names segs) →
  (∀ name, name ∈ Format.field_names segs → is_Some (m !! name)) →
  ∃ s, Format.render segs m = Ok s.
Proof.
  induction segs as [|[c|name] segs IH]; cbn [Format.field_names];
    intros Hdig Hm.
  - by eexists.
  - destruct (IH Hdig Hm) as [s Hs]. cbn [Format.render]. rewrite Hs.
    by eexists.
  - apply Forall_cons in Hdig as [Hname Hdig].
    destruct (Hm name) as [v Hv]; [by left|].
    destruct IH as [s Hs]; [done| |].
    { intros n Hn. apply Hm. by right. }
    cbn [Format.render]. unfold Format.get_value.
    rewrite Hname, Hv, Hs. by eexists.
Qed.

Lemma identifier_not_digits (name : string) :
  Format.identifier name = true → Format.all_digits name = false.
Proof.
  destruct name as [|c r]; [done|]. cbn [Format.identifier Format.all_digits].
  intros [Hc _]%andb_true_iff.
  assert (Format.is_digit c = false) as ->; [|done].
  unfold Format.is_letter, Format.is_digit in *.
  destruct (N.leb_spec 48 (N_of_ascii c)); [|done].
  destruct (N.leb_spec (N_of_ascii c) 57); [|done].
  destruct (N.leb_spec 65 (N_of_ascii c)); [lia|].
  destruct (N.leb_spec 97 (N_of_ascii c)); [lia|].
  destruct (N.eqb_spec (N_of_ascii c) 95); [lia|done].
Qed.

Lemma identifiers_not_digits (names : list string) :
  Forall (λ name, Format.identifier name = true) names →
  Forall (λ name, Format.all_digits name = false) names.
Proof.
  intros H. eapply Forall_impl; [exact H|]. apply identifier_not_digits.
Qed.

(** X7: for a library whose template is well formed, with fields that are
    plain identifiers and nothing more: when the template refers to a key
    that neither the defaults of the library nor the icon name nor the
    overrides bind, [get_path] raises [KeyError] for such a key, whatever
    is on disk. *)
Theorem get_path_unbound_placeholder (σ : Store) (library icon : string)
    (kwargs : gmap string string) (cfg : library_config) (t : string)
    (d : gmap string string) (segs : list Format.segment) (k : string) :
  LIBRARIES σ !! library = Some cfg → cfg_path cfg = Some t →
  defaults_of σ cfg = Some d →
  Format.parse t None = Ok segs →
  Forall (λ name, Format.identifier name = true)
    (Format.field_names segs) →
  k ∈ Format.field_names segs →
  merged_substitutions d icon kwargs !! k = None →
  ∃ k', k' ∈ Format.field_names segs
        ∧ merged_substitutions d icon kwargs !! k' = None
        ∧ (get_path library icon kwargs σ).1 = Raise (KeyError k').
Proof.
  intros HL Ht Hd Hparse Hdig%identifiers_not_digits Hk Hm.
  destruct (render_unbound segs _ k Hdig Hk Hm) as (k' & Hk' & Hm' & Hr).
  exists k'. repeat split; [done..|].
  rewrite (get_path_registered σ _ _ _ cfg t d HL Ht Hd).
  rewrite <- merged_substitutions_union.
  by rewrite (format_parse t segs), Hr.
Qed.

(** X8: for a library whose template is well formed, with fields that are
    plain identifiers and nothing more: when every key the template refers
    to is bound, by the defaults, the icon name or the overrides, the
    template formats, and [get_path] looks up
    [ICONLIB_ROOT / library / formatted]: it returns that path when
    [exists()] finds the file, raises [FileNotFoundError] with the path in
    its message when [exists()] finds none, and raises the [OSError] of
    [exists()] when that fails. *)
Theorem get_path_bound_placeholders (σ : Store) (library icon : string)
    (kwargs : gmap string string) (cfg : library_config) (t : string)
    (d : gmap string string) (segs : list Format.segment) :
  LIBRARIES σ !! library = Some cfg → cfg_path cfg = Some t →
  defaults_of σ cfg = Some d →
  Format.parse t None = Ok segs →
  Forall (λ name, Format.identifier name = true)
    (Format.field_names segs) →
  (∀ name, name ∈ Format.field_names segs →
           is_Some (merged_substitutions d icon kwargs !! name)) →
  ∃ relative,
    Format.format t (merged_substitutions d icon kwargs) = Ok relative
    ∧ let p := ICONLIB_ROOT // library // relative in
      (get_path library icon kwargs σ).1 =
        match Path_exists p with
        | Ok true => Ok p
        | Ok false =>
            Raise (FileNotFoundError
                     ("No icon file found at: " +:+ Pathlib.str p))
        | Raise e => Raise e
        end.
Proof.
  intros HL Ht Hd Hparse Hdig%identifiers_not_digits Hm.
  destruct (render_bound segs _ Hdig Hm) as [relative Hr].
  assert (Hf : Format.format t (merged_substitutions d icon kwargs)
               = Ok relative).
  { by rewrite (format_parse t segs). }
  exists relative. split; [done|].
  rewrite (get_path_registered σ _ _ _ cfg t d HL Ht Hd).
  by rewrite <- merged_substitutions_union, Hf.
Qed.

(** ** More on [_fill_pixmap_by_alpha] *)

Lemma positions_in_range (image : QImage) (x y : nat) :
  (x, y) ∈ Image.positions image ↔ Image.in_range image x y = true.
Proof.
  rewrite elem_of_positions. unfold Image.in_range.
  rewrite andb_true_iff, !Nat.ltb_lt. done.
Qed.

(** The whole of a run: the image, pixel by pixel, and the store. *)
Lemma fill_pixmap_by_alpha_pixels (pixmap : QPixmap) (l : loc) (c : QColor)
    (σ : Store) :
  colours σ !! l = Some c →
  ∃ out σ',
    _fill_pixmap_by_alpha pixmap l σ = (Ok out, σ')
    ∧ img_width out = img_width pixmap
    ∧ img_height out = img_height pixmap
    ∧ (∀ x y, Image.pixelColor out x y
              = if Image.in_range pixmap x y
                then recoloured c (pixel_at pixmap x y)
                else Color.invalid)
    ∧ LIBRARIES σ' = LIBRARIES σ ∧ dicts σ' = dicts σ
    ∧ colours σ'
      = <[l := colour_after pixmap c (Image.positions pixmap)]> (colours σ).
Proof.
  intros Hc.
  destruct (fill_pixmap_by_alpha_run pixmap l c σ Hc)
    as (σ' & Hrun & HL & Hd & Hcol).
  pose proof (scan_spec pixmap c (Image.positions pixmap)
                (NoDup_positions pixmap)
                (λ x y, proj1 (positions_in_range pixmap x y))) as Hspec.
  revert Hrun Hcol Hspec.
  destruct (scan (Image.positions pixmap) (pixmap, c)) as [out c'].
  cbn [fst snd]. intros Hrun Hcol (Hw & Hh & Hpix & ->).
  exists out, σ'. repeat split; [done..| |done|done|done].
  intros x y. unfold Image.pixelColor.
  assert (Image.in_range out x y = Image.in_range pixmap x y) as ->.
  { unfold Image.in_range. by rewrite Hw, Hh. }
  destruct (Image.in_range pixmap x y) eqn:Hin; [|done].
  rewrite Hpix, bool_decide_eq_true_2; [done|].
  by apply positions_in_range.
Qed.

Lemma filter_nil_Forall {A} (f : A → bool) (l : list A) :
  List.filter f l = [] → Forall (λ x, f x = false) l.
Proof.
  induction l as [|x l IH]; simpl; [done|].
  destruct (f x) eqn:Hx; [done|]. intros H. constructor; auto.
Qed.

(** X9: an image without a pixel of alpha greater than 0, the empty image
    among them, is returned as it is, and no object is read or changed:
    the colour object keeps its alpha, and need not even be there. *)
Theorem fill_pixmap_by_alpha_transparent (pixmap : QPixmap)
    (fill_color : loc) (σ : Store) :
  visible pixmap = [] →
  _fill_pixmap_by_alpha pixmap fill_color σ = (Ok pixmap, σ).
Proof.
  intros Hvis.
  change (_fill_pixmap_by_alpha pixmap fill_color σ)
    with ((let! image :=
             for_each (seq 0 (img_height pixmap)) (λ y s,
               for_each (seq 0 (img_width pixmap))
                 (λ x s, visit_object fill_color (x, y) s) s) pixmap in
           ret image) σ).
  unfold bind. rewrite for_each_nested.
  apply filter_nil_Forall in Hvis. unfold Image.row_major in Hvis.
  rewrite Forall_fmap in Hvis. unfold Image.positions in Hvis.
  revert Hvis.
  generalize (y ← seq 0 (img_height pixmap);
              (λ x, (x, y)) <$> seq 0 (img_width pixmap)).
  intros ps Hps.
  assert (for_each ps (visit_object fill_color) pixmap σ = (Ok pixmap, σ))
    as ->; [|done].
  induction Hps as [|p ps Hp _ IH]; [done|].
  cbn [for_each]. unfold bind, visit_object at 1.
  cbn [compose] in Hp. rewrite Hp. unfold ret at 1. exact IH.
Qed.

Lemma recoloured_same_rgb (c1 c2 pixel : QColor) :
  red c1 = red c2 → green c1 = green c2 → blue c1 = blue c2 →
  recoloured c1 pixel = recoloured c2 pixel.
Proof.
  intros Hr Hg Hb. unfold recoloured, Color.with_alpha.
  by rewrite Hr, Hg, Hb.
Qed.

(** X10: of the fill colour only the red, the green and the blue count:
    two colours that differ in their alpha only give the same image, pixel
    for pixel. *)
Theorem fill_pixmap_by_alpha_ignores_fill_alpha (pixmap : QPixmap)
    (l1 l2 : loc) (c1 c2 : QColor) (σ1 σ2 : Store) :
  colours σ1 !! l1 = Some c1 → colours σ2 !! l2 = Some c2 →
  red c1 = red c2 → green c1 = green c2 → blue c1 = blue c2 →
  ∃ out1 out2,
    (_fill_pixmap_by_alpha pixmap l1 σ1).1 = Ok out1
    ∧ (_fill_pixmap_by_alpha pixmap l2 σ2).1 = Ok out2
    ∧ img_width out1 = img_width out2
    ∧ img_height out1 = img_height out2
    ∧ ∀ x y, Image.pixelColor out1 x y = Image.pixelColor out2 x y.
Proof.
  intros Hc1 Hc2 Hr Hg Hb.
  destruct (fill_pixmap_by_alpha_pixels pixmap l1 c1 σ1 Hc1)
    as (out1 & σ1' & -> & Hw1 & Hh1 & Hpix1 & _).
  destruct (fill_pixmap_by_alpha_pixels pixmap l2 c2 σ2 Hc2)
    as (out2 & σ2' & -> & Hw2 & Hh2 & Hpix2 & _).
  exists out1, out2. repeat split; [congruence..|].
  intros x y. rewrite Hpix1, Hpix2.
  destruct (Image.in_range pixmap x y); [|done].
  by apply recoloured_same_rgb.
Qed.

Lemma colour_after_snoc (image : QImage) (c : QColor)
    (ps : list (nat * nat)) (p : nat * nat) :
  colour_after image c (ps ++ [p])
    = if 0 <? alpha (Image.pixelColor image p.1 p.2)
      then Color.with_alpha c (alpha (Image.pixelColor image p.1 p.2))
      else colour_after image c ps.
Proof.
  unfold colour_after. rewrite fmap_app, List.filter_app.
  cbn [fmap list_fmap List.filter].
  destruct (0 <? alpha (Image.pixelColor image p.1 p.2)).
  - by rewrite last_snoc.
  - by rewrite (right_id_L [] (++)).
Qed.

(** The colour a scan leaves depends on the alphas it meets. *)
Lemma colour_after_ext (image1 image2 : QImage) (c : QColor)
    (ps : list (nat * nat)) :
  (∀ p, p ∈ ps → alpha (Image.pixelColor image1 p.1 p.2)
                 = alpha (Image.pixelColor image2 p.1 p.2)) →
  colour_after image1 c ps = colour_after image2 c ps.
Proof.
  induction ps as [|p ps IH] using rev_ind; intros Hps; [done|].
  rewrite !colour_after_snoc.
  rewrite (Hps p) by (apply elem_of_app; right; by left).
  rewrite IH; [done|]. intros q Hq. apply Hps, elem_of_app. by left.
Qed.

Lemma colour_after_twice (image : QImage) (c : QColor)
    (ps : list (nat * nat)) :
  colour_after image (colour_after image c ps) ps = colour_after image c ps.
Proof. unfold colour_after. by destruct (last _). Qed.

Lemma alpha_recoloured (c pixel : QColor) :
  alpha (recoloured c pixel) = alpha pixel.
Proof.
  unfold recoloured. destruct (0 <? alpha pixel); [|done].
  by rewrite alpha_stored.
Qed.

Lemma recoloured_twice (c c' pixel : QColor) :
  red c' = red c → green c' = green c → blue c' = blue c →
  recoloured c' (recoloured c pixel) = recoloured c pixel.
Proof.
  intros Hr Hg Hb. unfold recoloured at 1. rewrite alpha_recoloured.
  unfold recoloured, Color.with_alpha.
  destruct (0 <? alpha pixel); [|done]. cbn [alpha]. by rewrite Hr, Hg, Hb.
Qed.

Lemma rgb_colour_after (image : QImage) (c : QColor)
    (ps : list (nat * nat)) :
  red (colour_after image c ps) = red c
  ∧ green (colour_after image c ps) = green c
  ∧ blue (colour_after image c ps) = blue c.
Proof. unfold colour_after. by destruct (last _). Qed.

(** X11: to recolour what has been recoloured, with the same colour
    object, changes nothing any more: the second run returns the image of
    the first, pixel for pixel, and leaves the colour object as the first
    run left it. *)
Theorem fill_pixmap_by_alpha_twice (pixmap : QPixmap) (fill_color : loc)
    (c : QColor) (σ : Store) :
  colours σ !! fill_color = Some c →
  ∃ out1 σ1 out2 σ2,
    _fill_pixmap_by_alpha pixmap fill_color σ = (Ok out1, σ1)
    ∧ _fill_pixmap_by_alpha out1 fill_color σ1 = (Ok out2, σ2)
    ∧ img_width out2 = img_width out1
    ∧ img_height out2 = img_height out1
    ∧ (∀ x y, Image.pixelColor out2 x y = Image.pixelColor out1 x y)
    ∧ colours σ2 = colours σ1.
Proof.
  intros Hc.
  destruct (fill_pixmap_by_alpha_pixels pixmap fill_color c σ Hc)
    as (out1 & σ1 & Hrun1 & Hw1 & Hh1 & Hpix1 & _ & _ & Hcol1).
  set (c1 := colour_after pixmap c (Image.positions pixmap)) in *.
  assert (Hc1 : colours σ1 !! fill_color = Some c1).
  { rewrite Hcol1. apply lookup_insert_eq. }
  destruct (fill_pixmap_by_alpha_pixels out1 fill_color c1 σ1 Hc1)
    as (out2 & σ2 & Hrun2 & Hw2 & Hh2 & Hpix2 & _ & _ & Hcol2).
  exists out1, σ1, out2, σ2. repeat split; [done..| |].
  - intros x y. rewrite Hpix2.
    pose proof (Hpix1 x y) as H1. unfold Image.pixelColor in H1 at 1.
    assert (Hr : Image.in_range out1 x y = Image.in_range pixmap x y).
    { unfold Image.in_range. by rewrite Hw1, Hh1. }
    rewrite Hr in *. rewrite Hpix1.
    destruct (Image.in_range pixmap x y); [|done]. rewrite H1.
    destruct (rgb_colour_after pixmap c (Image.positions pixmap))
      as (? & ? & ?).
    by apply recoloured_twice.
  - rewrite Hcol2.
    assert (Hpos : Image.positions out1 = Image.positions pixmap).
    { unfold Image.positions. by rewrite Hw1, Hh1. }
    rewrite Hpos.
    rewrite (colour_after_ext out1 pixmap c1 (Image.positions pixmap)).
    + unfold c1. rewrite colour_after_twice. fold c1.
      rewrite Hcol1. apply insert_insert_eq.
    + intros [x y] Hp%positions_in_range. cbn [fst snd].
      rewrite Hpix1, Hp. unfold Image.pixelColor. rewrite Hp.
      apply alpha_recoloured.
Qed.

(** ** More on [get_qpixmap] *)

(** X12: unless the icon is a raster icon and a colour is given,
    [get_qpixmap] changes nothing the caller had, the colour object
    neither: an SVG icon is filled with the colour without the colour being
    touched, and so is nothing when the call raises. *)
Theorem get_qpixmap_keeps_colour (σ : Store) (library icon : string)
    (width height : Z) (colour : option loc)
    (kwargs : gmap string string) :
  (∀ icon_path, (get_path library icon kwargs σ).1 = Ok icon_path →
                colour = None ∨ Pathlib.suffix icon_path = ".svg") →
  nothing_changed σ
    (get_qpixmap library icon width height colour kwargs σ).2.
Proof.
  intros Hcase.
  pose proof (get_path_nothing_changed σ library icon kwargs) as Hk.
  unfold get_qpixmap. unfold bind at 1.
  destruct (get_path library icon kwargs σ) as [[icon_path|e] σ1];
    [|done]. cbn [fst snd] in *.
  unfold bind at 1.
  destruct (String.eqb_spec (Pathlib.suffix icon_path) ".svg") as [Hs|Hs].
  - unfold bind. destruct colour as [l|]; [|done].
    unfold Color.read. by destruct (colours σ1 !! l).
  - destruct (Hcase icon_path eq_refl) as [->|?]; done.
Qed.

Lemma keep_aspect_ratio_fits (w h : nat) (tw th : Z) :
  1 ≤ tw → 1 ≤ th → (0 < w)%nat → (0 < h)%nat →
  Z.max (Pixmap.keep_aspect_ratio w h tw th).1 1 ≤ tw
  ∧ Z.max (Pixmap.keep_aspect_ratio w h tw th).2 1 ≤ th.
Proof.
  intros Htw Hth Hw Hh. unfold Pixmap.keep_aspect_ratio.
  destruct (Nat.eqb_spec w 0) as [|_]; [lia|].
  destruct (Nat.eqb_spec h 0) as [|_]; [lia|]. cbn [orb].
  destruct (Z.leb_spec (th * Z.of_nat w / Z.of_nat h) tw) as [Hle|Hgt];
    cbn [fst snd].
  - lia.
  - split; [lia|].
    assert (tw * Z.of_nat h / Z.of_nat w < th); [|lia].
    apply Z.div_lt_upper_bound; [lia|].
    assert (tw + 1 ≤ th * Z.of_nat w / Z.of_nat h) as Hlow by lia.
    assert ((tw + 1) * Z.of_nat h ≤ th * Z.of_nat w); [|nia].
    etrans; [apply Z.mul_le_mono_nonneg_r; [lia|exact Hlow]|].
    rewrite Z.mul_comm. apply Z.mul_div_le. lia.
Qed.

(** What [scaled] returns is inside the size asked for. *)
Lemma scaled_fits (resample : QPixmap → nat → nat → nat → nat → QColor)
    (pixmap : QPixmap) (tw th : Z) :
  Z.of_nat (img_width (Pixmap.scaled resample pixmap tw th)) ≤ Z.max 0 tw
  ∧ Z.of_nat (img_height (Pixmap.scaled resample pixmap tw th))
    ≤ Z.max 0 th.
Proof.
  unfold Pixmap.scaled.
  destruct (Pixmap.isNull pixmap) eqn:Hnull; [simpl; lia|].
  destruct (Z.ltb_spec tw 1); [simpl; lia|].
  destruct (Z.ltb_spec th 1); [simpl; lia|]. cbn [orb].
  unfold Pixmap.isNull in Hnull. apply orb_false_iff in Hnull as [Hw Hh].
  apply Nat.eqb_neq in Hw, Hh.
  destruct (keep_aspect_ratio_fits (img_width pixmap) (img_height pixmap)
              tw th) as [Hfw Hfh]; [lia..|].
  destruct (Pixmap.keep_aspect_ratio _ _ tw th) as [nw nh].
  cbn [fst snd] in *.
  destruct (Nat.eqb_spec (Z.to_nat (Z.max nw 1)) (img_width pixmap))
    as [Hew|_];
    [destruct (Nat.eqb_spec (Z.to_nat (Z.max nh 1)) (img_height pixmap))
       as [Heh|_]|]; cbn [andb img_width img_height]; lia.
Qed.

(** X13: the bitmap [get_qpixmap] returns is never wider than [width] nor
    higher than [height]; for a width or a height below 1 it is the null
    bitmap. *)
Theorem get_qpixmap_fits (σ : Store) (library icon : string)
    (width height : Z) (colour : option loc)
    (kwargs : gmap string string) (pixmap : QPixmap) :
  (get_qpixmap library icon width height colour kwargs σ).1 = Ok pixmap →
  Z.of_nat (img_width pixmap) ≤ Z.max 0 width
  ∧ Z.of_nat (img_height pixmap) ≤ Z.max 0 height.
Proof.
  unfold get_qpixmap. unfold bind at 1.
  destruct (get_path library icon kwargs σ) as [[icon_path|e] σ1];
    [|done].
  unfold bind at 1.
  match goal with
  | |- context [(if ?b then ?m1 else ?m2) σ1] =>
      destruct ((if b then m1 else m2) σ1) as [[inner|e] σ2]; [|done]
  end.
  unfold ret. cbn [fst]. intros [= <-]. apply scaled_fits.
Qed.

(** An opaque colour through the mask of the rendering. *)
Lemma source_in_opaque (source destination : QColor) :
  alpha source = 255 → 0 ≤ alpha destination ≤ 255 →
  alpha (Pixmap.source_in composed source destination) = alpha destination
  ∧ (alpha destination = 0 →
     Pixmap.source_in composed source destination = Color.transparent)
  ∧ (alpha destination = 255 →
     Pixmap.source_in composed source destination = source).
Proof.
  intros Hs Hd. unfold Pixmap.source_in. rewrite Hs.
  rewrite div_255_full by done. cbn zeta. cbn [Z.eqb Pos.eqb andb].
  destruct (Z.eqb_spec (alpha destination) 0) as [H0|H0].
  - split; [by rewrite H0|]. split; [done|]. lia.
  - destruct (Z.eqb_spec (alpha destination) 255) as [H255|H255].
    + split; [by rewrite Hs, H255|]. split; [done|]. done.
    + split; [done|]. split; done.
Qed.

(** X14: an SVG icon with a colour that is opaque, at a width and a height
    that are not empty and that a C [int] holds: the bitmap has the size
    asked for; at every position its alpha is the alpha of what was
    rendered there, it is fully transparent, every channel 0, where
    nothing was rendered, and it is the colour itself where the rendering
    is opaque; the colour object is not changed.  The alpha of a rendered
    pixel is taken to be one of 0 to 255. *)
Theorem get_qpixmap_svg_colour (σ σ1 : Store) (library icon : string)
    (width height : nat) (l : loc) (c : QColor)
    (kwargs : gmap string string) (icon_path : Path) :
  (0 < width)%nat → (0 < height)%nat →
  Z.of_nat width < 2 ^ 31 → Z.of_nat height < 2 ^ 31 →
  get_path library icon kwargs σ = (Ok icon_path, σ1) →
  Pathlib.suffix icon_path = ".svg" →
  colours σ !! l = Some c → alpha c = 255 →
  ∃ pixmap,
    get_qpixmap library icon (Z.of_nat width) (Z.of_nat height) (Some l)
      kwargs σ = (Ok pixmap, σ1)
    ∧ img_width pixmap = width ∧ img_height pixmap = height
    ∧ colours σ1 !! l = Some c
    ∧ ∀ x y, (x < width)%nat → (y < height)%nat →
        let rendered :=
          svg_render (Pathlib.str icon_path) width height x y
            Color.transparent in
        0 ≤ alpha rendered ≤ 255 →
        alpha (Image.pixelColor pixmap x y) = alpha rendered
        ∧ (alpha rendered = 0 →
           Image.pixelColor pixmap x y = Color.transparent)
        ∧ (alpha rendered = 255 → Image.pixelColor pixmap x y = c).
Proof.
  intros Hw Hh _ _ Hpath Hsuf Hc Hopaque.
  pose proof (get_path_nothing_changed σ library icon kwargs) as [_ Hcs].
  rewrite Hpath in Hcs. cbn [snd] in Hcs.
  assert (Hc1 : colours σ1 !! l = Some c) by by rewrite Hcs.
  exists (mkImage width height (λ x y,
            Pixmap.source_in composed c
              (svg_render (Pathlib.str icon_path) width height x y
                 Color.transparent))).
  split.
  - unfold get_qpixmap, bind. rewrite Hpath, Hsuf.
    cbn [String.eqb Ascii.eqb Bool.eqb]. unfold Color.read. rewrite Hc1.
    unfold ret. do 2 f_equal.
    unfold _svg_to_pixmap, Pixmap.filled.
    destruct (Z.ltb_spec 0 (Z.of_nat width)); [|lia].
    destruct (Z.ltb_spec 0 (Z.of_nat height)); [|lia].
    cbn [andb]. rewrite !Nat2Z.id. unfold Pixmap.paint.
    cbn [img_width img_height pixel_at].
    apply (scaled_same_size smooth (mkImage width height _)); simpl; lia.
  - split; [done|]. split; [done|]. split; [done|].
    intros x y Hx Hy rendered Hrange.
    unfold Image.pixelColor, Image.in_range. cbn [img_width img_height].
    destruct (Nat.ltb_spec x width); [|lia].
    destruct (Nat.ltb_spec y height); [|lia]. cbn [andb pixel_at].
    by apply source_in_opaque.
Qed.

(** X15: a raster icon without a colour, asked for at the size it has, is
    used as it is: [get_qpixmap] returns the bitmap that was loaded, and
    changes nothing the caller had. *)
Theorem get_qpixmap_raster_as_is (σ σ1 : Store) (library icon : string)
    (kwargs : gmap string string) (icon_path : Path) :
  get_path library icon kwargs σ = (Ok icon_path, σ1) →
  Pathlib.suffix icon_path ≠ ".svg" →
  Pixmap.isNull (load_pixmap (Pathlib.str icon_path)) = false →
  get_qpixmap library icon
    (Z.of_nat (img_width (load_pixmap (Pathlib.str icon_path))))
    (Z.of_nat (img_height (load_pixmap (Pathlib.str icon_path))))
    None kwargs σ
  = (Ok (load_pixmap (Pathlib.str icon_path)), σ1)
  ∧ nothing_changed σ σ1.
Proof.
  intros Hpath Hsuf Hnull. split.
  - unfold get_qpixmap, bind. rewrite Hpath.
    apply String.eqb_neq in Hsuf. rewrite Hsuf. unfold ret. do 2 f_equal.
    unfold Pixmap.isNull in Hnull. apply orb_false_iff in Hnull as [Hw Hh].
    apply Nat.eqb_neq in Hw, Hh. apply scaled_same_size; lia.
  - pose proof (get_path_nothing_changed σ library icon kwargs) as H.
    by rewrite Hpath in H.
Qed.

End Iconlib.


(** * The theorems at work *)

(** The functions run in the world of [Demo]. *)

Lemma initial_store_intact : registry_intact initial_store.
Proof. split; reflexivity. Defined.

(** C1, amended, on the black icon of [Demo], filled with red: at the
    alphas 128 and 64 the red 200 is stored as 199, and at the alpha 255
    as it is. *)
Lemma fill_pixmap_by_alpha_recolours_witness :
  colours Demo.store !! 7%nat = Some Demo.red_colour
  ∧ ∃ out σ',
      _fill_pixmap_by_alpha Demo.premultiplied Demo.shaded 7%nat Demo.store
        = (Ok out, σ')
      ∧ Image.pixelColor out 0 0 = mkColor 0 0 0 0
      ∧ Image.pixelColor out 1 0 = mkColor 199 0 0 128
      ∧ Image.pixelColor out 0 1 = mkColor 199 0 0 64
      ∧ Image.pixelColor out 1 1 = mkColor 200 0 0 255.
Proof.
  split; [reflexivity|].
  destruct (fill_pixmap_by_alpha_recolours Demo.premultiplied Demo.shaded
              7%nat Demo.red_colour Demo.store eq_refl)
    as (out & σ' & Hrun & _ & _ & Hpix).
  exists out, σ'. split; [exact Hrun|]. repeat split.
  - destruct (Hpix 0%nat 0%nat) as [H _]; [simpl; lia..|].
    apply H. reflexivity.
  - destruct (Hpix 1%nat 0%nat) as (_ & _ & _ & H); [simpl; lia..|].
    rewrite H; [reflexivity|reflexivity|discriminate].
  - destruct (Hpix 0%nat 1%nat) as (_ & _ & _ & H); [simpl; lia..|].
    rewrite H; [reflexivity|reflexivity|discriminate].
  - destruct (Hpix 1%nat 1%nat) as (_ & _ & H & _); [simpl; lia..|].
    apply H. reflexivity.
Defined.

(** C1 as it is stated fails where the alpha is below 255: the pixel of
    alpha 128 is filled with the red 200, and what is read of it is the
    red 199, because the image keeps its pixels premultiplied. *)
Lemma fill_pixmap_by_alpha_recolours_counterexample :
  colours Demo.store !! 7%nat = Some Demo.red_colour
  ∧ red Demo.red_colour = 200
  ∧ alpha (Image.pixelColor Demo.shaded 1 0) = 128
  ∧ ∃ out σ',
      _fill_pixmap_by_alpha Demo.premultiplied Demo.shaded 7%nat Demo.store
        = (Ok out, σ')
      ∧ alpha (Image.pixelColor out 1 0) = 128
      ∧ red (Image.pixelColor out 1 0) = 199.
Proof.
  split; [reflexivity|]. split; [reflexivity|]. split; [reflexivity|].
  eexists _, _. split; [reflexivity|]. split; reflexivity.
Qed.

(** C2, amended, for [material], the icon [add] and the keyword
    [style="bold"]. *)
Lemma get_path_resolves_witness :
  (LIBRARIES initial_store !! "material"
   = Some (mkConfig (Some "{icon}/{style}.{ext}") (Some 0%nat))
   ∧ defaults_of initial_store
       (mkConfig (Some "{icon}/{style}.{ext}") (Some 0%nat))
     = Some {[ "style" := "regular"; "ext" := "svg" ]}
   ∧ NoDup Demo.bold.*1
   ∧ ("library" ∉ Demo.bold.*1)
   ∧ ("icon" ∉ Demo.bold.*1))
  ∧ Format.format "{icon}/{style}.{ext}"
      (merged_substitutions {[ "style" := "regular"; "ext" := "svg" ]}
         "add" (list_to_map Demo.bold))
    = Ok "add/bold.svg"
  ∧ resolve_spec Demo.file "material" "{icon}/{style}.{ext}"
      {[ "style" := "regular"; "ext" := "svg" ]} "add"
      (list_to_map Demo.bold)
    = Ok (mkPath "/" ["opt"; "app"; "icons"; "material"; "add";
                      "bold.svg"])
  ∧ (call_get_path Demo.file Demo.every_file "material" "add"
       Demo.bold initial_store).1
    = Ok (mkPath "/" ["opt"; "app"; "icons"; "material"; "add";
                      "bold.svg"])
  ∧ parts (mkPath "/" ["opt"; "app"; "icons"; "material"; "add";
                       "bold.svg"])
    = parts (ICONLIB_ROOT Demo.file) ++ ["material"]
        ++ Pathlib.parts_of "add/bold.svg".
Proof.
  assert (Hnd : NoDup Demo.bold.*1) by apply NoDup_singleton.
  assert (Hlib : "library" ∉ Demo.bold.*1).
  { intros H. apply list_elem_of_singleton in H. discriminate H. }
  assert (Hicon : "icon" ∉ Demo.bold.*1).
  { intros H. apply list_elem_of_singleton in H. discriminate H. }
  split; [repeat split; [exact Hnd|exact Hlib|exact Hicon]|].
  destruct (get_path_resolves Demo.file Demo.every_file initial_store
              "material" "add" Demo.bold
              (mkConfig (Some "{icon}/{style}.{ext}") (Some 0%nat))
              "{icon}/{style}.{ext}"
              {[ "style" := "regular"; "ext" := "svg" ]}
              eq_refl eq_refl eq_refl Hnd) as [_ H].
  destruct (H Hlib Hicon) as (_ & _ & _ & _ & Hmodule).
  destruct (Hmodule initial_store_intact "svg" eq_refl)
    as (_ & Hformat & Hresolve & Hrun & Hparts).
  split; [exact Hformat|]. split; [exact Hresolve|].
  split; [rewrite Hrun; reflexivity|].
  exact (proj2 (Hparts eq_refl)).
Defined.

(** C2 as it is stated fails for an override of the icon name.  The
    resolution of the claim lets the override win and gives the path of
    the icon [x], which is on disk; the call [get_path("material", "add",
    icon="x")] raises [TypeError], and resolves nothing. *)
Lemma get_path_resolves_counterexample :
  LIBRARIES initial_store !! "material"
  = Some (mkConfig (Some "{icon}/{style}.{ext}") (Some 0%nat))
  ∧ defaults_of initial_store
      (mkConfig (Some "{icon}/{style}.{ext}") (Some 0%nat))
    = Some {[ "style" := "regular"; "ext" := "svg" ]}
  ∧ resolve_spec Demo.file "material" "{icon}/{style}.{ext}"
      {[ "style" := "regular"; "ext" := "svg" ]} "add" {[ "icon" := "x" ]}
    = Ok (mkPath "/" ["opt"; "app"; "icons"; "material"; "x";
                      "regular.svg"])
  ∧ exists_ Demo.every_file
      (mkPath "/" ["opt"; "app"; "icons"; "material"; "x"; "regular.svg"])
    = true
  ∧ call_get_path Demo.file Demo.every_file "material" "add"
      [("icon", "x")] initial_store
    = (Raise (TypeError "get_path() got multiple values for argument 'icon'"),
       initial_store).
Proof. repeat split; reflexivity. Qed.

(** C3 for a library that is not registered. *)
Lemma get_path_library_not_found_witness :
  LIBRARIES initial_store !! "fontawesome" = None
  ∧ ∃ msg,
      get_path Demo.file Demo.every_file "fontawesome" "add" ∅ initial_store
        = (Raise (ValueError msg), initial_store)
      ∧ get_qpixmap Demo.file Demo.every_file Demo.load Demo.render
          Demo.resample Demo.premultiplied Demo.composed
            "fontawesome" "add" 20 20 None ∅ initial_store
        = (Raise (ValueError msg), initial_store)
      ∧ Str.substring_of "internal" msg
      ∧ Str.substring_of "material" msg.
Proof.
  split; [reflexivity|].
  destruct (get_path_library_not_found Demo.file Demo.every_file Demo.load
              Demo.render Demo.resample Demo.premultiplied Demo.composed
                initial_store "fontawesome" "add"
              20 20 None ∅ eq_refl)
    as (msg & Hpath & Hpixmap & _ & Hnames).
  exists msg. repeat split; [exact Hpath|exact Hpixmap|..];
    apply Hnames; eexists; reflexivity.
Defined.

(** C4, amended, for an icon of [material], on a disk without and with
    the file, and for a name that the disk does not take. *)
Lemma get_path_file_not_found_witness :
  (LIBRARIES initial_store !! "material"
   = Some (mkConfig (Some "{icon}/{style}.{ext}") (Some 0%nat))
   ∧ Format.format "{icon}/{style}.{ext}"
       (merged_substitutions {[ "style" := "regular"; "ext" := "svg" ]}
          "missing" ∅)
     = Ok "missing/regular.svg"
   ∧ Format.format "{icon}/{style}.{ext}"
       (merged_substitutions {[ "style" := "regular"; "ext" := "svg" ]}
          Demo.long_name ∅)
     = Ok (Demo.long_name +:+ "/regular.svg"))
  ∧ (get_path Demo.file Demo.no_file "material" "missing" ∅
       initial_store).1
    = Raise (FileNotFoundError
               "No icon file found at: /opt/app/icons/material/missing/regular.svg")
  ∧ (get_path Demo.file Demo.every_file "material" "missing" ∅
       initial_store).1
    = Ok (mkPath "/" ["opt"; "app"; "icons"; "material"; "missing";
                      "regular.svg"])
  ∧ (get_path Demo.file Demo.short_names "material" Demo.long_name ∅
       initial_store).1
    = Raise (OSError Os.ENAMETOOLONG).
Proof.
  split; [repeat split; reflexivity|]. split; [|split].
  - apply (get_path_file_not_found Demo.file Demo.no_file initial_store
             "material" "missing" ∅
             (mkConfig (Some "{icon}/{style}.{ext}") (Some 0%nat))
             "{icon}/{style}.{ext}"
             {[ "style" := "regular"; "ext" := "svg" ]}
             "missing/regular.svg"); reflexivity.
  - apply (get_path_file_not_found Demo.file Demo.every_file initial_store
             "material" "missing" ∅
             (mkConfig (Some "{icon}/{style}.{ext}") (Some 0%nat))
             "{icon}/{style}.{ext}"
             {[ "style" := "regular"; "ext" := "svg" ]}
             "missing/regular.svg"); reflexivity.
  - apply (get_path_file_not_found Demo.file Demo.short_names initial_store
             "material" Demo.long_name ∅
             (mkConfig (Some "{icon}/{style}.{ext}") (Some 0%nat))
             "{icon}/{style}.{ext}"
             {[ "style" := "regular"; "ext" := "svg" ]}
             (Demo.long_name +:+ "/regular.svg")); reflexivity.
Defined.

(** C4 as it is stated fails for a name that the disk does not take.  With
    an icon name of 256 characters the template formats, the formatted
    path is not on disk, and [get_path] does not raise
    [FileNotFoundError]: [exists()] fails, and its [OSError] is what the
    call raises. *)
Lemma get_path_file_not_found_counterexample :
  LIBRARIES initial_store !! "material"
  = Some (mkConfig (Some "{icon}/{style}.{ext}") (Some 0%nat))
  ∧ String.length Demo.long_name = 256%nat
  ∧ Format.format "{icon}/{style}.{ext}"
      (merged_substitutions {[ "style" := "regular"; "ext" := "svg" ]}
         Demo.long_name ∅)
    = Ok (Demo.long_name +:+ "/regular.svg")
  ∧ exists_ Demo.short_names
      (ICONLIB_ROOT Demo.file // "material"
         // (Demo.long_name +:+ "/regular.svg")) = false
  ∧ (get_path Demo.file Demo.short_names "material" Demo.long_name ∅
       initial_store).1
    = Raise (OSError Os.ENAMETOOLONG)
  ∧ ¬ ∃ msg,
        (get_path Demo.file Demo.short_names "material" Demo.long_name ∅
           initial_store).1
        = Raise (FileNotFoundError msg).
Proof.
  assert (Hrun :
    (get_path Demo.file Demo.short_names "material" Demo.long_name ∅
       initial_store).1
    = Raise (OSError Os.ENAMETOOLONG)) by (vm_compute; reflexivity).
  split; [reflexivity|]. split; [reflexivity|].
  split; [vm_compute; reflexivity|]. split; [vm_compute; reflexivity|].
  split; [exact Hrun|]. intros [msg Hmsg]. rewrite Hrun in Hmsg.
  discriminate Hmsg.
Qed.

(** C10 for the override [colour], which no template refers to. *)
Lemma get_path_ignores_unreferenced_witness :
  (LIBRARIES initial_store !! "material"
   = Some (mkConfig (Some "{icon}/{style}.{ext}") (Some 0%nat))
   ∧ Format.placeholders "{icon}/{style}.{ext}" = ["icon"; "style"; "ext"])
  ∧ (get_path Demo.file Demo.every_file "material" "add"
       ({[ "colour" := "white" ]} ∪ {[ "style" := "bold" ]})
       initial_store).1
    = (get_path Demo.file Demo.every_file "material" "add"
         {[ "style" := "bold" ]} initial_store).1.
Proof.
  split; [split; reflexivity|].
  apply (get_path_ignores_unreferenced Demo.file Demo.every_file
           initial_store "material" "add" {[ "style" := "bold" ]}
           {[ "colour" := "white" ]}
           (mkConfig (Some "{icon}/{style}.{ext}") (Some 0%nat))
           "{icon}/{style}.{ext}"); [reflexivity..|].
  intros key [v [<- _]%lookup_singleton_Some].
  change (Format.placeholders "{icon}/{style}.{ext}")
    with ["icon"; "style"; "ext"].
  intros Hin. repeat (apply elem_of_cons in Hin as [Hin|Hin];
                      [discriminate Hin|]).
  by apply elem_of_nil in Hin.
Defined.

(** C6, amended, with the override [png] and with no override. *)
Lemma get_path_extension_witness :
  (registry_intact initial_store
   ∧ default_ext initial_store "material" = Some "svg"
   ∧ (get_path Demo.file Demo.every_file "material" "add"
        {[ "ext" := "png" ]} initial_store).1
     = Ok (mkPath "/" ["opt"; "app"; "icons"; "material"; "add";
                       "regular.png"])
   ∧ (get_path Demo.file Demo.every_file "material" "add" ∅
        initial_store).1
     = Ok (mkPath "/" ["opt"; "app"; "icons"; "material"; "add";
                       "regular.svg"]))
  ∧ Str.endswith "/opt/app/icons/material/add/regular.png" "png" = true
  ∧ Str.endswith "/opt/app/icons/material/add/regular.svg" "svg" = true.
Proof.
  assert (Hreg : registry_intact initial_store) by (split; reflexivity).
  split; [repeat split; reflexivity|]. split.
  - exact (get_path_extension Demo.file Demo.every_file initial_store
             "material" "add" {[ "ext" := "png" ]} "svg"
             (mkPath "/" ["opt"; "app"; "icons"; "material"; "add";
                          "regular.png"]) Hreg eq_refl eq_refl eq_refl).
  - exact (get_path_extension Demo.file Demo.every_file initial_store
             "material" "add" ∅ "svg"
             (mkPath "/" ["opt"; "app"; "icons"; "material"; "add";
                          "regular.svg"]) Hreg eq_refl eq_refl).
Defined.

(** C6 as it is stated fails for an ["ext"] override that ends in a
    separator: the file [add/regular.svg] is there, [get_path] returns its
    path, and the path does not end in the override, because a path has no
    trailing separator. *)
Lemma get_path_extension_counterexample :
  registry_intact initial_store
  ∧ default_ext initial_store "material" = Some "svg"
  ∧ ({[ "ext" := "svg/" ]} : gmap string string) !! "ext" = Some "svg/"
  ∧ ∃ icon_path,
      (get_path Demo.file Demo.every_file "material" "add"
         {[ "ext" := "svg/" ]} initial_store).1 = Ok icon_path
      ∧ Pathlib.str icon_path = "/opt/app/icons/material/add/regular.svg"
      ∧ Str.endswith (Pathlib.str icon_path) "svg/" = false.
Proof.
  split; [split; reflexivity|]. split; [reflexivity|].
  split; [reflexivity|].
  exists (mkPath "/" ["opt"; "app"; "icons"; "material"; "add";
                      "regular.svg"]).
  repeat split; reflexivity.
Qed.



(** C9 on the raster icon of [Demo]: the alpha of the red goes from 255 to
    64, the alpha of the last pixel of the scan that is not transparent. *)
Lemma fill_pixmap_by_alpha_mutates_colour_witness :
  (colours Demo.store !! 7%nat = Some Demo.red_colour
   ∧ last (visible Demo.raster) = Some (mkColor 9 9 9 64)
   ∧ Pathlib.suffix
       (mkPath "/" ["opt"; "app"; "icons"; "internal"; "logo";
                    "regular.png"]) ≠ ".svg")
  ∧ colours (_fill_pixmap_by_alpha Demo.premultiplied
    Demo.raster 7%nat Demo.store).2 !! 7%nat
    = Some (mkColor 200 0 0 64)
  ∧ colours
      (get_qpixmap Demo.file Demo.every_file Demo.load Demo.render
         Demo.resample Demo.premultiplied Demo.composed
           "internal" "logo" 20 20 (Some 7%nat) ∅
         Demo.store).2 !! 7%nat
    = Some (mkColor 200 0 0 64).
Proof.
  split; [repeat split; [reflexivity..|discriminate]|].
  destruct (fill_pixmap_by_alpha_mutates_colour Demo.file Demo.every_file
              Demo.load Demo.render Demo.resample Demo.premultiplied
                Demo.composed Demo.raster 7%nat
              Demo.red_colour (mkColor 9 9 9 64) Demo.store
              eq_refl eq_refl) as [Hfill Hpixmap].
  split; [exact Hfill|].
  apply (Hpixmap "internal" "logo" 20 20 ∅
           (mkPath "/" ["opt"; "app"; "icons"; "internal"; "logo";
                        "regular.png"])
           (get_path Demo.file Demo.every_file "internal" "logo" ∅
              Demo.store).2);
    [reflexivity|discriminate|reflexivity].
Defined.

(** ** More of the module, at work *)

Lemma initial_store_well_formed : well_formed initial_store.
Proof.
  intros name cfg l Hcfg Hl. cbn [LIBRARIES initial_store] in Hcfg.
  destruct (decide (name = "material")) as [->|Hm];
    [|destruct (decide (name = "internal")) as [->|Hi]].
  - rewrite lookup_insert_eq in Hcfg. injection Hcfg as <-.
    injection Hl as <-. by eexists.
  - rewrite lookup_insert_ne, lookup_singleton_eq in Hcfg by done.
    injection Hcfg as <-. injection Hl as <-. by eexists.
  - by rewrite lookup_insert_ne, lookup_singleton_ne in Hcfg.
Defined.

(** X1 for a library of the module whose icon is not on disk. *)
Lemma get_path_outcomes_witness :
  registry_intact initial_store
  ∧ ((∃ msg, (get_path Demo.file Demo.no_file "material" "add" ∅
                initial_store).1 = Raise (ValueError msg))
     ↔ ∀ names, (get_library_names initial_store).1 = Ok names →
                "material" ∉ names).
Proof.
  split; [exact initial_store_intact|].
  apply (get_path_outcomes Demo.file Demo.no_file initial_store
           "material" "add" ∅ initial_store_intact).
Defined.

(** X2 for the icon [add] of [material]. *)
Lemma get_path_returns_existing_witness :
  (get_path Demo.file Demo.every_file "material" "add" ∅ initial_store).1
  = Ok (mkPath "/" ["opt"; "app"; "icons"; "material"; "add";
                    "regular.svg"])
  ∧ exists_ Demo.every_file
      (mkPath "/" ["opt"; "app"; "icons"; "material"; "add";
                   "regular.svg"]) = true.
Proof.
  assert (H : (get_path Demo.file Demo.every_file "material" "add" ∅
                 initial_store).1
              = Ok (mkPath "/" ["opt"; "app"; "icons"; "material"; "add";
                                "regular.svg"])) by reflexivity.
  split; [exact H|].
  exact (get_path_returns_existing Demo.file Demo.every_file initial_store
           "material" "add" ∅ _ H).
Defined.

(** X3: a call for [material], then a call for [internal]. *)
Lemma calls_do_not_interfere_witness :
  well_formed initial_store
  ∧ (get_path Demo.file Demo.every_file "internal" "logo" ∅
       (get_qpixmap Demo.file Demo.every_file Demo.load Demo.render
          Demo.resample Demo.premultiplied Demo.composed
            "material" "add" 30 30 None {[ "style" := "bold" ]}
          initial_store).2).1
    = (get_path Demo.file Demo.every_file "internal" "logo" ∅
         initial_store).1.
Proof.
  split; [exact initial_store_well_formed|].
  apply (calls_do_not_interfere Demo.file Demo.every_file Demo.load
           Demo.render Demo.resample Demo.premultiplied Demo.composed
             initial_store "material" "add" 30 30
           None {[ "style" := "bold" ]} "internal" "logo" ∅
           initial_store_well_formed).
Defined.

(** X4 with an override of the style and of the extension, on a disk
    with every file and on one with none. *)
Lemma get_path_overrides_witness :
  (registry_intact initial_store
   ∧ default_ext initial_store "internal" = Some "png"
   ∧ ({[ "style" := "bold"; "ext" := "jpg" ]} : gmap string string)
       !! "icon" = None)
  ∧ (get_path Demo.file Demo.every_file "internal" "logo"
       {[ "style" := "bold"; "ext" := "jpg" ]} initial_store).1
    = Ok (mkPath "/" ["opt"; "app"; "icons"; "internal"; "logo";
                      "bold.jpg"])
  ∧ (get_path Demo.file Demo.no_file "internal" "logo"
       {[ "style" := "bold"; "ext" := "jpg" ]} initial_store).1
    = Raise (FileNotFoundError
               "No icon file found at: /opt/app/icons/internal/logo/bold.jpg").
Proof.
  assert (Hicon : ({[ "style" := "bold"; "ext" := "jpg" ]}
                     : gmap string string) !! "icon" = None)
    by reflexivity.
  split; [repeat split; reflexivity|]. split.
  - rewrite (get_path_overrides Demo.file Demo.every_file initial_store
               "internal" "logo" {[ "style" := "bold"; "ext" := "jpg" ]}
               "png" initial_store_intact eq_refl Hicon).
    reflexivity.
  - rewrite (get_path_overrides Demo.file Demo.no_file initial_store
               "internal" "logo" {[ "style" := "bold"; "ext" := "jpg" ]}
               "png" initial_store_intact eq_refl Hicon).
    reflexivity.
Defined.

(** X5 for the empty icon name: the path is [/regular.svg]. *)
Lemma get_path_absolute_icon_witness :
  (registry_intact initial_store
   ∧ default_ext initial_store "material" = Some "svg"
   ∧ Pathlib.is_absolute ("" +:+ "/") = true)
  ∧ (get_path Demo.file Demo.every_file "material" "" ∅ initial_store).1
    = Ok (mkPath "/" ["regular.svg"]).
Proof.
  assert (Hicon : (∅ : gmap string string) !! "icon" = None)
    by reflexivity.
  assert (Habs : Pathlib.is_absolute ("" +:+ "/") = true) by reflexivity.
  split; [repeat split; reflexivity|].
  rewrite (get_path_absolute_icon Demo.file Demo.every_file initial_store
             "material" "" ∅ "svg" initial_store_intact eq_refl Hicon
             Habs).
  reflexivity.
Defined.

(** X6 for the icon [add] of [material]. *)
Lemma get_path_under_library_root_witness :
  (registry_intact initial_store
   ∧ default_ext initial_store "material" = Some "svg"
   ∧ Pathlib.is_absolute ("add" +:+ "/") = false)
  ∧ parts (mkPath "/" ["opt"; "app"; "icons"; "material"; "add";
                       "regular.svg"])
    = parts (ICONLIB_ROOT Demo.file) ++ ["material"]
        ++ Pathlib.parts_of "add/regular.svg".
Proof.
  split; [repeat split; reflexivity|].
  exact (proj2 (get_path_under_library_root Demo.file Demo.every_file
                  initial_store "material" "add" ∅ "svg"
                  (mkPath "/" ["opt"; "app"; "icons"; "material"; "add";
                               "regular.svg"])
                  initial_store_intact eq_refl eq_refl eq_refl eq_refl)).
Defined.

(** X7: the library [tagged] without a [colour]. *)
Lemma get_path_unbound_placeholder_witness :
  (LIBRARIES Demo.tagged_store !! "tagged"
   = Some (mkConfig (Some "{icon}_{colour}.{ext}") (Some 2%nat))
   ∧ Format.parse "{icon}_{colour}.{ext}" None
     = Ok [Format.Field "icon"; Format.Lit "_"; Format.Field "colour";
           Format.Lit "."; Format.Field "ext"]
   ∧ merged_substitutions {[ "ext" := "svg" ]} "add" ∅ !! "colour" = None)
  ∧ ∃ k, k ∈ ["icon"; "colour"; "ext"]
         ∧ merged_substitutions {[ "ext" := "svg" ]} "add" ∅ !! k = None
         ∧ (get_path Demo.file Demo.every_file "tagged" "add" ∅
              Demo.tagged_store).1 = Raise (KeyError k).
Proof.
  split; [repeat split; reflexivity|].
  apply (get_path_unbound_placeholder Demo.file Demo.every_file
           Demo.tagged_store "tagged" "add" ∅
           (mkConfig (Some "{icon}_{colour}.{ext}") (Some 2%nat))
           "{icon}_{colour}.{ext}" {[ "ext" := "svg" ]}
           [Format.Field "icon"; Format.Lit "_"; Format.Field "colour";
            Format.Lit "."; Format.Field "ext"] "colour"
           eq_refl eq_refl eq_refl eq_refl).
  - repeat constructor.
  - repeat constructor.
  - reflexivity.
Defined.

(** X8: the library [tagged] with a [colour]. *)
Lemma get_path_bound_placeholders_witness :
  (LIBRARIES Demo.tagged_store !! "tagged"
   = Some (mkConfig (Some "{icon}_{colour}.{ext}") (Some 2%nat))
   ∧ Format.parse "{icon}_{colour}.{ext}" None
     = Ok [Format.Field "icon"; Format.Lit "_"; Format.Field "colour";
           Format.Lit "."; Format.Field "ext"])
  ∧ Format.format "{icon}_{colour}.{ext}"
      (merged_substitutions {[ "ext" := "svg" ]} "add"
         {[ "colour" := "white" ]}) = Ok "add_white.svg"
  ∧ (get_path Demo.file Demo.every_file "tagged" "add"
       {[ "colour" := "white" ]} Demo.tagged_store).1
    = Ok (mkPath "/" ["opt"; "app"; "icons"; "tagged"; "add_white.svg"]).
Proof.
  split; [repeat split; reflexivity|].
  destruct (get_path_bound_placeholders Demo.file Demo.every_file
              Demo.tagged_store "tagged" "add" {[ "colour" := "white" ]}
              (mkConfig (Some "{icon}_{colour}.{ext}") (Some 2%nat))
              "{icon}_{colour}.{ext}" {[ "ext" := "svg" ]}
              [Format.Field "icon"; Format.Lit "_"; Format.Field "colour";
               Format.Lit "."; Format.Field "ext"]
              eq_refl eq_refl eq_refl eq_refl)
    as (relative & Hformat & Hrun).
  - repeat constructor.
  - cbn [Format.field_names]. intros name Hname.
    repeat (apply elem_of_cons in Hname as [->|Hname];
            [by eexists|]).
    by apply elem_of_nil in Hname.
  - assert (Hrel : Ok relative = Ok "add_white.svg")
      by (rewrite <- Hformat; reflexivity).
    injection Hrel as ->. split; [reflexivity|].
    rewrite Hrun. reflexivity.
Defined.

(** X9 on the blank icon, with a colour object that is not there. *)
Lemma fill_pixmap_by_alpha_transparent_witness :
  visible Demo.blank = []
  ∧ _fill_pixmap_by_alpha Demo.premultiplied Demo.blank 3%nat initial_store
    = (Ok Demo.blank, initial_store).
Proof.
  split; [reflexivity|].
  apply (fill_pixmap_by_alpha_transparent Demo.premultiplied
    Demo.blank 3%nat initial_store).
  reflexivity.
Defined.

(** X10: the red of [Demo], opaque and at alpha 10. *)
Lemma fill_pixmap_by_alpha_ignores_fill_alpha_witness :
  (colours Demo.store !! 7%nat = Some Demo.red_colour
   ∧ colours {| LIBRARIES := ∅; dicts := ∅;
                colours := {[ 1%nat := mkColor 200 0 0 10 ]} |} !! 1%nat
     = Some (mkColor 200 0 0 10))
  ∧ ∃ out1 out2,
      (_fill_pixmap_by_alpha Demo.premultiplied
        Demo.raster 7%nat Demo.store).1 = Ok out1
      ∧ (_fill_pixmap_by_alpha Demo.premultiplied Demo.raster 1%nat
           {| LIBRARIES := ∅; dicts := ∅;
              colours := {[ 1%nat := mkColor 200 0 0 10 ]} |}).1 = Ok out2
      ∧ img_width out1 = img_width out2
      ∧ img_height out1 = img_height out2
      ∧ ∀ x y, Image.pixelColor out1 x y = Image.pixelColor out2 x y.
Proof.
  split; [split; reflexivity|].
  apply (fill_pixmap_by_alpha_ignores_fill_alpha Demo.premultiplied
           Demo.raster 7%nat 1%nat
           Demo.red_colour (mkColor 200 0 0 10)); reflexivity.
Defined.

(** X11 on the raster icon of [Demo]. *)
Lemma fill_pixmap_by_alpha_twice_witness :
  colours Demo.store !! 7%nat = Some Demo.red_colour
  ∧ ∃ out1 σ1 out2 σ2,
      _fill_pixmap_by_alpha Demo.premultiplied
        Demo.raster 7%nat Demo.store = (Ok out1, σ1)
      ∧ _fill_pixmap_by_alpha Demo.premultiplied out1 7%nat σ1 = (Ok out2, σ2)
      ∧ img_width out2 = img_width out1
      ∧ img_height out2 = img_height out1
      ∧ (∀ x y, Image.pixelColor out2 x y = Image.pixelColor out1 x y)
      ∧ colours σ2 = colours σ1.
Proof.
  split; [reflexivity|].
  apply (fill_pixmap_by_alpha_twice Demo.premultiplied
    Demo.raster 7%nat Demo.red_colour
           Demo.store). reflexivity.
Defined.

(** X12: an SVG icon with the colour object of [Demo]. *)
Lemma get_qpixmap_keeps_colour_witness :
  (get_path Demo.file Demo.every_file "material" "add" ∅ Demo.store).1
  = Ok (mkPath "/" ["opt"; "app"; "icons"; "material"; "add";
                    "regular.svg"])
  ∧ nothing_changed Demo.store
      (get_qpixmap Demo.file Demo.every_file Demo.load Demo.render
         Demo.resample Demo.premultiplied Demo.composed
           "material" "add" 20 20 (Some 7%nat) ∅ Demo.store).2.
Proof.
  assert (H : (get_path Demo.file Demo.every_file "material" "add" ∅
                 Demo.store).1
              = Ok (mkPath "/" ["opt"; "app"; "icons"; "material"; "add";
                                "regular.svg"])) by reflexivity.
  split; [exact H|].
  apply (get_qpixmap_keeps_colour Demo.file Demo.every_file Demo.load
           Demo.render Demo.resample Demo.premultiplied Demo.composed
             Demo.store "material" "add" 20 20
           (Some 7%nat) ∅).
  intros icon_path Hp. right. rewrite H in Hp. injection Hp as <-.
  reflexivity.
Defined.

(** X13: the raster icon of [Demo], two by two, asked for at 1 by 5. *)
Lemma get_qpixmap_fits_witness :
  ∃ pixmap,
    (get_qpixmap Demo.file Demo.every_file Demo.load Demo.render
       Demo.resample Demo.premultiplied Demo.composed
         "internal" "logo" 1 5 None ∅ Demo.store).1 = Ok pixmap
    ∧ Z.of_nat (img_width pixmap) ≤ 1 ∧ Z.of_nat (img_height pixmap) ≤ 5.
Proof.
  eexists. split; [reflexivity|].
  apply (get_qpixmap_fits Demo.file Demo.every_file Demo.load Demo.render
           Demo.resample Demo.premultiplied Demo.composed
             Demo.store "internal" "logo" 1 5 None ∅).
  reflexivity.
Defined.

(** X14: the icon [add] of [material] in the red of [Demo], 8 by 6. *)
Lemma get_qpixmap_svg_colour_witness :
  (get_path Demo.file Demo.every_file "material" "add" ∅ Demo.store
   = (Ok (mkPath "/" ["opt"; "app"; "icons"; "material"; "add";
                      "regular.svg"]),
      (get_path Demo.file Demo.every_file "material" "add" ∅
         Demo.store).2)
   ∧ colours Demo.store !! 7%nat = Some Demo.red_colour
   ∧ alpha Demo.red_colour = 255)
  ∧ ∃ pixmap,
      (get_qpixmap Demo.file Demo.every_file Demo.load Demo.render
         Demo.resample Demo.premultiplied Demo.composed "material" "add"
         8 6 (Some 7%nat) ∅ Demo.store).1
      = Ok pixmap
      ∧ img_width pixmap = 8%nat ∧ img_height pixmap = 6%nat
      ∧ Image.pixelColor pixmap 1 4 = mkColor 200 0 0 255
      ∧ alpha (Image.pixelColor pixmap 4 4) = 102
      ∧ Image.pixelColor pixmap 4 1 = mkColor 0 0 0 0.
Proof.
  assert (Hpath :
    get_path Demo.file Demo.every_file "material" "add" ∅ Demo.store
    = (Ok (mkPath "/" ["opt"; "app"; "icons"; "material"; "add";
                       "regular.svg"]),
       (get_path Demo.file Demo.every_file "material" "add" ∅
          Demo.store).2)) by reflexivity.
  split; [split; [exact Hpath|split; reflexivity]|].
  destruct (get_qpixmap_svg_colour Demo.file Demo.every_file Demo.load
              Demo.render Demo.resample Demo.premultiplied Demo.composed
              Demo.store
              (get_path Demo.file Demo.every_file "material" "add" ∅
                 Demo.store).2
              "material" "add" 8 6 7%nat Demo.red_colour ∅
              (mkPath "/" ["opt"; "app"; "icons"; "material"; "add";
                           "regular.svg"]))
    as (pixmap & Hrun & Hw & Hh & _ & Hpix);
    [lia|lia|reflexivity|reflexivity|exact Hpath
    |reflexivity|reflexivity|reflexivity|].
  exists pixmap. split; [exact (f_equal fst Hrun)|]. split; [exact Hw|].
  split; [exact Hh|]. repeat split.
  - apply (Hpix 1%nat 4%nat); [lia|lia|split; discriminate|reflexivity].
  - apply (Hpix 4%nat 4%nat); [lia|lia|split; discriminate].
  - apply (Hpix 4%nat 1%nat); [lia|lia|split; discriminate|reflexivity].
Defined.

(** X15: the raster icon of [Demo] at two by two. *)
Lemma get_qpixmap_raster_as_is_witness :
  (get_path Demo.file Demo.every_file "internal" "logo" ∅ Demo.store
   = (Ok (mkPath "/" ["opt"; "app"; "icons"; "internal"; "logo";
                      "regular.png"]),
      (get_path Demo.file Demo.every_file "internal" "logo" ∅
         Demo.store).2)
   ∧ Pixmap.isNull Demo.raster = false)
  ∧ (get_qpixmap Demo.file Demo.every_file Demo.load Demo.render
       Demo.resample Demo.premultiplied Demo.composed
         "internal" "logo" 2 2 None ∅ Demo.store).1
    = Ok Demo.raster.
Proof.
  assert (Hpath :
    get_path Demo.file Demo.every_file "internal" "logo" ∅ Demo.store
    = (Ok (mkPath "/" ["opt"; "app"; "icons"; "internal"; "logo";
                       "regular.png"]),
       (get_path Demo.file Demo.every_file "internal" "logo" ∅
          Demo.store).2)) by reflexivity.
  split; [split; [exact Hpath|reflexivity]|].
  destruct (get_qpixmap_raster_as_is Demo.file Demo.every_file Demo.load
              Demo.render Demo.resample Demo.premultiplied Demo.composed
                Demo.store _ "internal" "logo" ∅
              _ Hpath) as [Hrun _]; [discriminate|reflexivity|].
  exact (f_equal fst Hrun).
Defined.
